(** * Enrollment processing pipeline: a shallow embedding of
      [scripts/process_enrollment.py] and the properties of its
      classification, aggregation and baseline-diff steps.

    A string stands for a Python [str] through its UTF-8 encoding, one
    character of the model for each byte.  Lower-casing maps the ASCII
    letters and the two characters outside ASCII that Python turns into
    text with an ASCII letter; upper-casing maps the ASCII letters, and
    the theorems that upper-case a whole text are about ASCII text.  The
    enrollment column is an int64 column, whose sums wrap around.
    Dictionaries are finite maps ([gmap]); a pandas missing value (NaN)
    and Python's [None] are constructors of [pyval].  What depends on the
    installed pandas is a parameter ([Pandas]) of the functions that it
    changes. *)

From Stdlib Require Import ZArith NArith Ascii String List Bool Lia.
From stdpp Require Import gmap strings list fin_maps sorting.

Local Open Scope string_scope.
Local Open Scope Z_scope.

(* ===================================================================== *)
(** ** Python string primitives used by the script *)
(* ===================================================================== *)

Module PyStr.

Definition is_upper (c : ascii) : bool :=
  let n := N_of_ascii c in ((65 <=? n) && (n <=? 90))%N.

Definition is_lower (c : ascii) : bool :=
  let n := N_of_ascii c in ((97 <=? n) && (n <=? 122))%N.

Definition lower_char (c : ascii) : ascii :=
  if is_upper c then ascii_of_N (N_of_ascii c + 32) else c.

Definition upper_char (c : ascii) : ascii :=
  if is_lower c then ascii_of_N (N_of_ascii c - 32) else c.

(** Two characters outside ASCII are lower-cased by Python to text with
    an ASCII letter: U+0130, capital I with a dot above, to "i" followed
    by U+0307, and U+212A, the Kelvin sign, to "k".  In UTF-8 the first is
    the bytes 196 176 and the second the bytes 226 132 170. *)
Definition is_dotted_I (c d : ascii) : bool :=
  (N_of_ascii c =? 196)%N && (N_of_ascii d =? 176)%N.

Definition is_kelvin (c d e : ascii) : bool :=
  (N_of_ascii c =? 226)%N && (N_of_ascii d =? 132)%N && (N_of_ascii e =? 170)%N.

(** [s.lower()].  The ASCII letters and the two characters above are
    mapped as Python maps them; another character outside ASCII is left
    as it is, where Python gives it another character outside ASCII:
    which letters of ASCII the result has, and where, is as in Python. *)
Fixpoint lower (s : string) : string :=
  match s with
  | EmptyString => EmptyString
  | String c s1 =>
      match s1 with
      | EmptyString => String (lower_char c) EmptyString
      | String d s2 =>
          if is_dotted_I c d
          then String "i" (String (ascii_of_N 204) (String (ascii_of_N 135) (lower s2)))
          else
            match s2 with
            | EmptyString => String (lower_char c) (lower s1)
            | String e s3 =>
                if is_kelvin c d e then String "k" (lower s3)
                else String (lower_char c) (lower s1)
            end
      end
  end.

(** [s.upper()] of ASCII text.  The script upper-cases the first
    character of a contract number and compares the result with "H" and
    "R": no character outside ASCII is upper-cased to one of the two, so
    that leaving the bytes of such a character as they are gives the
    comparison its result. *)
Fixpoint upper (s : string) : string :=
  match s with
  | EmptyString => EmptyString
  | String c s' => String (upper_char c) (upper s')
  end.

(** [s.replace(c, r)] for a one-character pattern [c] *)
Fixpoint replace (c : ascii) (r : string) (s : string) : string :=
  match s with
  | EmptyString => EmptyString
  | String d s' =>
      if Ascii.eqb d c then r ++ replace c r s' else String d (replace c r s')
  end.


(** The characters [str.strip()] removes are those of [str.isspace()].
    In ASCII: tab, newline, vertical tab, form feed, carriage return,
    the four separators 28..31 and space. *)
Definition is_space (c : ascii) : bool :=
  let n := N_of_ascii c in
  (((9 <=? n) && (n <=? 13)) || ((28 <=? n) && (n <=? 32)))%N.

(** Beyond ASCII: U+0085, U+00A0, U+1680, U+2000..U+200A, U+2028,
    U+2029, U+202F, U+205F and U+3000.  [space_width s] is the number of
    bytes of the blank that [s] starts with, 0 when it starts with none. *)
Definition space_width (s : string) : nat :=
  match s with
  | EmptyString => O
  | String c s1 =>
      if is_space c then 1%nat
      else
        match N_of_ascii c, s1 with
        | 194%N, String d _ =>
            let d := N_of_ascii d in
            if ((d =? 133) || (d =? 160))%N then 2%nat else O
        | 225%N, String d (String e _) =>
            if ((N_of_ascii d =? 154) && (N_of_ascii e =? 128))%N then 3%nat else O
        | 226%N, String d (String e _) =>
            let d := N_of_ascii d in
            let e := N_of_ascii e in
            if ((d =? 128)
                && (((128 <=? e) && (e <=? 138))
                    || (e =? 168) || (e =? 169) || (e =? 175)))%N
            then 3%nat
            else if ((d =? 129) && (e =? 159))%N then 3%nat else O
        | 227%N, String d (String e _) =>
            if ((N_of_ascii d =? 128) && (N_of_ascii e =? 128))%N then 3%nat else O
        | _, _ => O
        end
  end.

(** [s[n:]] *)
Fixpoint drop (n : nat) (s : string) : string :=
  match n, s with
  | S n', String _ s' => drop n' s'
  | _, _ => s
  end.

Fixpoint lstrip_from (fuel : nat) (s : string) : string :=
  match fuel with
  | O => s
  | S fuel' =>
      match space_width s with
      | O => s
      | w => lstrip_from fuel' (drop w s)
      end
  end.

Definition lstrip (s : string) : string := lstrip_from (String.length s) s.

(** the number of bytes of the blank that [s] ends with, 0 when it ends
    with none *)
Definition space_width_end (s : string) : nat :=
  let n := String.length s in
  if ((1 <=? n) && (space_width (String.substring (n - 1) 1 s) =? 1))%nat then 1%nat
  else if ((2 <=? n) && (space_width (String.substring (n - 2) 2 s) =? 2))%nat then 2%nat
  else if ((3 <=? n) && (space_width (String.substring (n - 3) 3 s) =? 3))%nat then 3%nat
  else O.

Fixpoint rstrip_from (fuel : nat) (s : string) : string :=
  match fuel with
  | O => s
  | S fuel' =>
      match space_width_end s with
      | O => s
      | w => rstrip_from fuel' (String.substring 0 (String.length s - w) s)
      end
  end.

Definition rstrip (s : string) : string := rstrip_from (String.length s) s.

Definition strip (s : string) : string := rstrip (lstrip s).

(** [kw in s]: [kw] occurs in [s] as a contiguous substring *)
Fixpoint contains (kw s : string) : bool :=
  String.prefix kw s ||
  match s with
  | EmptyString => false
  | String _ s' => contains kw s'
  end.

(** [s[:n]] *)
Definition take (n : nat) (s : string) : string := String.substring 0 n s.

(** [any(p(x) for x in l)] *)
Definition any {A} (p : A -> bool) (l : list A) : bool := existsb p l.

End PyStr.

(* ===================================================================== *)
(** ** Python values held by table cells and passed to the classifiers *)
(* ===================================================================== *)

(** A cell of a table read with [dtype=str] is a string or NaN; the
    classifier functions also tolerate [None]. *)
Inductive pyval : Type :=
| PyNone
| PyNaN
| PyStr (s : string).

#[global] Instance pyval_eq_dec : EqDecision pyval.
Proof. solve_decision. Defined.

(** Python truthiness: [None] and the empty string are false, NaN (a
    non-zero float) is true. *)
Definition truthy (v : pyval) : bool :=
  match v with
  | PyNone => false
  | PyNaN => true
  | PyStr s => negb (String.eqb s "")
  end.

(** [pd.isna(v)] / [pd.notna(v)] *)
Definition isna (v : pyval) : bool :=
  match v with
  | PyStr _ => false
  | _ => true
  end.

Definition notna (v : pyval) : bool := negb (isna v).

(** [v or ""] *)
Definition or_empty (v : pyval) : pyval := if truthy v then v else PyStr "".

(** A string method applied to a value: a NaN (float) or [None] has no
    such method, and the call raises. *)
Definition as_str (v : pyval) : option string :=
  match v with
  | PyStr s => Some s
  | _ => None
  end.

(* ===================================================================== *)
(** ** What depends on the installed pandas *)
(* ===================================================================== *)

(** The script pins no version of pandas, and three of the things it
    relies on changed between versions.
    - [object_strings]: a column read with [dtype=str] has the dtype
      [object] (before pandas 3; from pandas 3 on it has the dtype [str],
      and [df['enrollment'].dtype == 'object'] is false).
    - [scalar_group_keys]: iterating [df.groupby(['state'])], a grouping
      by a list of one column, yields the state itself (before pandas 2;
      from pandas 2 on it yields a tuple of length one).
    - [empty_apply_raises]: assigning [df.apply(..., axis=1)] of a table
      without records to one column raises. *)
Record Pandas := {
  object_strings : bool;
  scalar_group_keys : bool;
  empty_apply_raises : bool;
}.

(** pandas 3 *)
Definition pandas_3 : Pandas :=
  {| object_strings := false; scalar_group_keys := false; empty_apply_raises := true |}.

(** a pandas that differs in giving a column of strings the dtype
    [object] *)
Definition object_pandas : Pandas :=
  {| object_strings := true; scalar_group_keys := false; empty_apply_raises := true |}.

(* ===================================================================== *)
(** ** Plan-type classifier *)
(* ===================================================================== *)

Definition dsnp_keywords : list string :=
  ["dsnp"; "dual"; "d-snp"; "dual eligible"; "dual-eligible"].

(** [identify_plan_type]; [None] stands for a raised [TypeError] or
    [AttributeError] (subscripting or lower-casing a float). *)
Definition identify_plan_type (contract_id plan_name org_type : pyval)
  : option string :=
  if negb (truthy contract_id) then Some "Other"
  else
    cid ← as_str contract_id;
    let prefix := PyStr.upper (PyStr.take 1 cid) in
    plan_name_lower ← PyStr.lower <$> as_str (or_empty plan_name);
    org_type_lower ← PyStr.lower <$> as_str (or_empty org_type);
    if PyStr.any (fun kw => PyStr.contains kw plan_name_lower
                            || PyStr.contains kw org_type_lower) dsnp_keywords
    then Some "DSNP"
    else if String.eqb prefix "H" then
      if PyStr.contains "ppo" plan_name_lower then Some "PPO" else Some "HMO"
    else if String.eqb prefix "R" then Some "PPO"
    else Some "Other".

(* ===================================================================== *)
(** ** Static contract-prefix table and parent-organization resolution *)
(* ===================================================================== *)

(** A dict display [{k1: v1, k2: v2, ...}] evaluates its items left to
    right, each one stored with [d[k] = v]. *)
Definition dict_display {V} (items : list (string * V)) : gmap string V :=
  fold_left (fun d kv => <[kv.1 := kv.2]> d) items ∅.

(** The items of [PARENT_ORG_MAPPING], in source order. *)
Definition PARENT_ORG_MAPPING_items : list (string * string) :=
  [ ("H0028", "UnitedHealth Group"); ("H0543", "UnitedHealth Group");
    ("H0754", "UnitedHealth Group"); ("H1045", "UnitedHealth Group");
    ("H1685", "UnitedHealth Group"); ("H2001", "UnitedHealth Group");
    ("H2168", "UnitedHealth Group"); ("H2406", "UnitedHealth Group");
    ("H3749", "UnitedHealth Group"); ("H4091", "UnitedHealth Group");
    ("H5253", "UnitedHealth Group"); ("H5521", "UnitedHealth Group");
    ("H6501", "UnitedHealth Group"); ("H7657", "UnitedHealth Group");
    ("R5826", "UnitedHealth Group");
    ("H0112", "CVS Health (Aetna)"); ("H0318", "CVS Health (Aetna)");
    ("H0485", "CVS Health (Aetna)"); ("H0533", "CVS Health (Aetna)");
    ("H1609", "CVS Health (Aetna)"); ("H2478", "CVS Health (Aetna)");
    ("H3152", "CVS Health (Aetna)"); ("H3312", "CVS Health (Aetna)");
    ("H3597", "CVS Health (Aetna)"); ("H4002", "CVS Health (Aetna)");
    ("H4448", "CVS Health (Aetna)"); ("H5521", "CVS Health (Aetna)");
    ("H9851", "CVS Health (Aetna)");
    ("H0028", "Humana"); ("H1036", "Humana"); ("H1406", "Humana");
    ("H1951", "Humana"); ("H2649", "Humana"); ("H4141", "Humana");
    ("H4461", "Humana"); ("H5216", "Humana"); ("H5619", "Humana");
    ("H6622", "Humana"); ("H7495", "Humana"); ("H8145", "Humana");
    ("R5826", "Humana");
    ("H0146", "Elevance Health (Anthem)"); ("H0354", "Elevance Health (Anthem)");
    ("H0540", "Elevance Health (Anthem)"); ("H2006", "Elevance Health (Anthem)");
    ("H3655", "Elevance Health (Anthem)"); ("H3905", "Elevance Health (Anthem)");
    ("H4624", "Elevance Health (Anthem)"); ("H5853", "Elevance Health (Anthem)");
    ("H9019", "Elevance Health (Anthem)");
    ("H0169", "Centene"); ("H1485", "Centene"); ("H2712", "Centene");
    ("H3447", "Centene"); ("H4007", "Centene"); ("H5427", "Centene");
    ("H6832", "Centene");
    ("H0524", "Kaiser Permanente"); ("H0630", "Kaiser Permanente");
    ("H2172", "Kaiser Permanente"); ("H9003", "Kaiser Permanente");
    ("H0107", "Cigna"); ("H0354", "Cigna"); ("H4513", "Cigna");
    ("H5410", "Cigna"); ("H6373", "Cigna");
    ("H0169", "Molina Healthcare"); ("H0420", "Molina Healthcare");
    ("H5823", "Molina Healthcare"); ("H9498", "Molina Healthcare");
    ("H0404", "BCBS"); ("H0520", "BCBS"); ("H1350", "BCBS");
    ("H2819", "BCBS"); ("H3949", "BCBS"); ("H5008", "BCBS");
    ("H6502", "BCBS") ].

Definition PARENT_ORG_MAPPING : gmap string string :=
  dict_display PARENT_ORG_MAPPING_items.

(** the value of the first, and of the last, item of a display written
    with key [k] *)
Definition first_defined {V} (k : string) (items : list (string * V)) : option V :=
  snd <$> List.find (fun kv => String.eqb kv.1 k) items.

Definition last_defined {V} (k : string) (items : list (string * V)) : option V :=
  first_defined k (rev items).

(** how many items of a display are written with key [k] *)
Definition times_defined {V} (k : string) (items : list (string * V)) : nat :=
  length (List.filter (fun kv => String.eqb kv.1 k) items).

(** [org_keywords], a dict display without repeated keys, iterated with
    [.items()] in insertion order. *)
Definition org_keywords : list (string * list string) :=
  [ ("UnitedHealth Group", ["united"; "uhc"; "optum"; "pacificare"]);
    ("CVS Health (Aetna)", ["aetna"; "cvs"]);
    ("Humana", ["humana"]);
    ("Elevance Health (Anthem)", ["anthem"; "wellpoint"; "elevance"]);
    ("Centene", ["centene"; "wellcare"; "health net"]);
    ("Kaiser Permanente", ["kaiser"]);
    ("Cigna", ["cigna"]);
    ("Molina Healthcare", ["molina"]);
    ("BCBS", ["blue cross"; "blue shield"; "bcbs"; "anthem"]) ].

(** The [for parent, keywords in org_keywords.items()] loop with its
    early [return parent]; [None] when the loop falls through. *)
Fixpoint first_keyword_match (org_name_lower : string)
    (items : list (string * list string)) : option string :=
  match items with
  | [] => None
  | (parent, keywords) :: rest =>
      if PyStr.any (fun kw => PyStr.contains kw org_name_lower) keywords
      then Some parent
      else first_keyword_match org_name_lower rest
  end.

Definition contract_base (cid : string) : string :=
  if (5 <=? String.length cid)%nat then PyStr.take 5 cid else cid.

(** [get_parent_org]; [None] stands for a raised exception (slicing or
    lower-casing a float). *)
Definition get_parent_org (contract_id org_name : pyval) : option string :=
  if negb (truthy contract_id) then Some "Other"
  else
    cid ← as_str contract_id;
    match PARENT_ORG_MAPPING !! contract_base cid with
    | Some org => Some org
    | None =>
        org_name_lower ← PyStr.lower <$> as_str (or_empty org_name);
        match first_keyword_match org_name_lower org_keywords with
        | Some parent => Some parent
        | None => Some "Other"
        end
    end.

(** [load_contract_info], after the file has been read: the rows of the
    contract-info table as (contract, organization) cells; a later row
    for the same contract replaces an earlier one. *)
Definition load_contract_info (rows : list (pyval * pyval)) : gmap string string :=
  fold_left
    (fun d row =>
       match row with
       | (PyStr contract, PyStr org) => <[contract := org]> d
       | _ => d
       end) rows ∅.

(** [get_org], the closure inside [process_csv] applied to each contract
    number when the table has no organization column. *)
Definition get_org (contract_to_org : gmap string string) (contract : pyval)
  : option string :=
  if isna contract then Some "Other"
  else
    match as_str contract ≫= (contract_to_org !!.) with
    | Some org => Some org
    | None => get_parent_org contract (PyStr "")
    end.

(* ===================================================================== *)
(** ** Tables *)
(* ===================================================================== *)

(** The table as [pd.read_csv(..., dtype=str)] returns it: a header and
    rows of cells, each cell a string or NaN. *)
Record RawTable := {
  raw_columns : list string;
  raw_rows : list (list pyval);
}.

(** [read_csv] turns an empty field into NaN, so a cell read from a file
    is never the empty string. *)
Definition read_field (field : string) : pyval :=
  if String.eqb field "" then PyNaN else PyStr field.


(** One record of the table after [process_csv]; a field whose column the
    table lacks is ignored (see the flags of [Frame]).  The enrollment is
    a cell of an int64 column. *)
Record Row := {
  contract_number : pyval;
  state : pyval;
  county : pyval;
  fips : pyval;
  enrollment : Z;
  organization : pyval;
  plan_name : pyval;
  org_type : pyval;
}.

(** The DataFrame handed to [aggregate_enrollment]: which of the optional
    columns exist, and the records. *)
Record Frame := {
  has_county : bool;
  has_fips : bool;
  has_organization : bool;
  has_plan_name : bool;
  has_org_type : bool;
  rows : list Row;
}.

(* ===================================================================== *)
(** ** Schema normalizer ([process_csv], column part) *)
(* ===================================================================== *)

(** [df.columns.str.strip().str.lower().str.replace(' ', '_')] *)
Definition standardize_column (c : string) : string :=
  PyStr.replace " "%char "_" (PyStr.lower (PyStr.strip c)).

Definition column_mappings : list (string * list string) :=
  [ ("contract_number", ["contract_number"; "contractid"; "contract_id"; "h_number"]);
    ("plan_id", ["plan_id"; "planid"; "plan_number"]);
    ("state", ["state"; "state_code"; "bene_state"]);
    ("county", ["county"; "county_name"; "bene_county"]);
    ("fips", ["fips"; "fips_code"; "county_fips"; "ssa_code"; "fips_state_county_code"]);
    ("enrollment", ["enrollment"; "total_enrollment"; "enrolled"; "member_count"; "enrollees"]);
    ("organization", ["organization_name"; "org_name"; "organization"; "plan_org_name";
                      "parent_organization"]);
    ("plan_name", ["plan_name"; "plan_benefit_package_name"; "pbp_name"]);
    ("org_type", ["organization_type"; "org_type"; "special_needs_plan_type"]) ].

(** [x in l] on a list of strings *)
Definition str_in (x : string) (l : list string) : bool :=
  existsb (String.eqb x) l.

(** the inner [for var in variations: if var in df.columns: ...; break] *)
Definition first_present (columns variations : list string) : option string :=
  List.find (fun var => str_in var columns) variations.

(** the [renamed] dict built by the outer loop *)
Definition build_renamed (columns : list string) : gmap string string :=
  fold_left
    (fun renamed '(standard_name, variations) =>
       match first_present columns variations with
       | Some var => <[var := standard_name]> renamed
       | None => renamed
       end) column_mappings ∅.

(** [df.rename(columns=renamed)] on the header *)
Definition rename_columns (renamed : gmap string string) (columns : list string)
  : list string :=
  List.map (fun c => default c (renamed !! c)) columns.

Definition normalized_columns (raw : list string) : list string :=
  let columns := List.map standardize_column raw in
  rename_columns (build_renamed columns) columns.

Definition required : list string := ["contract_number"; "state"; "enrollment"].

(** [missing = [col for col in required if col not in df.columns]] *)
Definition missing_columns (columns : list string) : list string :=
  List.filter (fun col => negb (str_in col columns)) required.

(** What the run writes to standard output, and the exceptions it
    raises.  [Print_available cols] is
    [print(f"Available columns: {cols}")]; [ValueError_missing m] is
    [ValueError(f"Missing required columns: {m}")]; [IntCastingError] is
    raised by [.astype(int)] on a non-finite value, [TypeError] by a
    string operation on a value that is not a string. *)
Inductive output : Type :=
| Print_available (columns : list string).

Inductive exn : Type :=
| ValueError_missing (missing : list string)
| IntCastingError
| TypeError.

Inductive outcome (A : Type) : Type :=
| Returns (a : A)
| Raises (e : exn).
Arguments Returns {A} a.
Arguments Raises {A} e.

(** The check of the required columns: prints, then raises, when the list
    of missing columns is not empty (a non-empty list is true). *)
Definition check_required (columns : list string) : list output * outcome unit :=
  let missing := missing_columns columns in
  match missing with
  | [] => ([], Returns tt)
  | _ :: _ => ([Print_available columns], Raises (ValueError_missing missing))
  end.

(* ===================================================================== *)
(** ** Enrollment coercion ([process_csv], cell part) *)
(* ===================================================================== *)

Module Numeric.

Definition is_digit (c : ascii) : bool :=
  let n := N_of_ascii c in ((48 <=? n) && (n <=? 57))%N.

Definition digit_value (c : ascii) : Z := Z.of_N (N_of_ascii c) - 48.

(** the value of a string of decimal digits, read left to right *)
Fixpoint digits_value (acc : Z) (s : string) : option Z :=
  match s with
  | EmptyString => Some acc
  | String c s' =>
      if is_digit c then digits_value (10 * acc + digit_value c) s' else None
  end.

Definition unsigned_value (s : string) : option Z :=
  match s with
  | EmptyString => None
  | _ => digits_value 0 s
  end.

(** the blanks the numeric parser skips around a literal (C [isspace]) *)
Definition is_blank (c : ascii) : bool :=
  let n := N_of_ascii c in (((9 <=? n) && (n <=? 13)) || (n =? 32))%N.

Fixpoint lskip (s : string) : string :=
  match s with
  | EmptyString => EmptyString
  | String c s' => if is_blank c then lskip s' else s
  end.

Fixpoint rskip (s : string) : string :=
  match s with
  | EmptyString => EmptyString
  | String c s' =>
      match rskip s' with
      | EmptyString => if is_blank c then EmptyString else String c EmptyString
      | t => String c t
      end
  end.

(** an optional sign followed by decimal digits, blanks around it *)
Definition integer_value (s : string) : option Z :=
  match rskip (lskip s) with
  | String "-"%char d => Z.opp <$> unsigned_value d
  | String "+"%char d => unsigned_value d
  | d => unsigned_value d
  end.

Fixpoint has_digit (s : string) : bool :=
  match s with
  | EmptyString => false
  | String c s' => is_digit c || has_digit s'
  end.

(** the characters of which the numeric parser makes a number: digits,
    sign, decimal point, exponent mark, blanks, and the letters of the
    spellings of infinity and NaN *)
Definition is_numeric_char (c : ascii) : bool :=
  is_digit c || is_blank c
  || existsb (Ascii.eqb (PyStr.lower_char c))
       ["."; "e"; "+"; "-"; "i"; "n"; "f"; "t"; "y"; "a"]%char.

Fixpoint all_numeric_chars (s : string) : bool :=
  match s with
  | EmptyString => true
  | String c s' => is_numeric_char c && all_numeric_chars s'
  end.

(** How [pd.to_numeric(..., errors='coerce')] sees one string.
    - [IntLit z]: an integer literal of magnitude at most 2^53, which
      both an int64 and a float64 column hold exactly;
    - [NotNumeric]: a character that no number is written with, or no
      digit and no spelling of infinity or NaN, so the parser rejects it
      and the cell is coerced to NaN;
    - [FloatLit]: anything else (fractions, exponents, infinities, very
      large integers, ill-formed text over the numeric characters); what
      it becomes is decided by float64 parsing and is a parameter of
      [coerce_cell]. *)
Inductive literal : Type :=
| IntLit (z : Z)
| NotNumeric
| FloatLit.

Definition classify (s : string) : literal :=
  match integer_value s with
  | Some z => if Z.abs z <=? 2 ^ 53 then IntLit z else FloatLit
  | None =>
      if all_numeric_chars s
         && (has_digit s
             || PyStr.contains "inf" (PyStr.lower s)
             || PyStr.contains "nan" (PyStr.lower s))
      then FloatLit else NotNumeric
  end.

End Numeric.

Section Coercion.

Variable pd : Pandas.

(** What [.fillna(0).astype(int)] yields for a cell that float64
    parsing decides, given the whole column; [None] when the cast
    raises (a non-finite value). *)
Variable float_to_int : list pyval -> string -> option Z.

(** the text of a cell that [pd.to_numeric] gets: the commas are removed
    only [if df['enrollment'].dtype == 'object'] *)
Definition numeric_text (s : string) : string :=
  if object_strings pd then PyStr.replace ","%char "" s else s.

(** One cell through the guarded [.str.replace(',', '')],
    [pd.to_numeric(errors='coerce')], [.fillna(0)] and [.astype(int)]. *)
Definition coerce_cell (column : list pyval) (v : pyval) : option Z :=
  match v with
  | PyStr s =>
      let t := numeric_text s in
      match Numeric.classify t with
      | Numeric.IntLit z => Some z
      | Numeric.NotNumeric => Some 0
      | Numeric.FloatLit => float_to_int column t
      end
  | _ => Some 0
  end.

Definition coerce_column (column : list pyval) : outcome (list Z) :=
  match mapM (coerce_cell column) column with
  | Some ints => Returns ints
  | None => Raises IntCastingError
  end.

End Coercion.

(* ===================================================================== *)
(** ** [process_csv] *)
(* ===================================================================== *)

(** position of the column called [name] *)
Fixpoint column_index (name : string) (columns : list string) : option nat :=
  match columns with
  | [] => None
  | c :: rest =>
      if String.eqb c name then Some O else S <$> column_index name rest
  end.

(** [row[name]]: a row shorter than the header is padded with NaN, and so
    is a column the table does not have (such a field is never read). *)
Definition cell_of (columns : list string) (name : string) (r : list pyval) : pyval :=
  match column_index name columns with
  | Some i => nth i r PyNaN
  | None => PyNaN
  end.

Section ProcessCsv.

Variable pd : Pandas.
Variable float_to_int : list pyval -> string -> option Z.

(** the table that [load_contract_info] returned *)
Variable contract_to_org : gmap string string.

(** [df['organization'] = df['contract_number'].apply(get_org)] when the
    column is absent, the column itself otherwise *)
Definition organization_of (columns : list string) (r : list pyval) : option pyval :=
  if str_in "organization" columns
  then Some (cell_of columns "organization" r)
  else PyStr <$> get_org contract_to_org (cell_of columns "contract_number" r).

Definition make_row (columns : list string) (r : list pyval) (n : Z) : option Row :=
  org ← organization_of columns r;
  Some {| contract_number := cell_of columns "contract_number" r;
          state := cell_of columns "state" r;
          county := cell_of columns "county" r;
          fips := cell_of columns "fips" r;
          enrollment := n;
          organization := org;
          plan_name := cell_of columns "plan_name" r;
          org_type := cell_of columns "org_type" r |}.

Fixpoint make_rows (columns : list string) (rs : list (list pyval)) (ns : list Z)
  : option (list Row) :=
  match rs, ns with
  | r :: rs', n :: ns' =>
      row ← make_row columns r n;
      rest ← make_rows columns rs' ns';
      Some (row :: rest)
  | _, _ => Some []
  end.

Definition process_csv (raw : RawTable) : list output * outcome Frame :=
  let columns := normalized_columns (raw_columns raw) in
  match check_required columns with
  | (out, Raises e) => (out, Raises e)
  | (out, Returns _) =>
      let column := List.map (cell_of columns "enrollment") (raw_rows raw) in
      match coerce_column pd float_to_int column with
      | Raises e => (out, Raises e)
      | Returns ints =>
          match make_rows columns (raw_rows raw) ints with
          | None => (out, Raises TypeError)
          | Some rs =>
              (out, Returns {| has_county := str_in "county" columns;
                               has_fips := str_in "fips" columns;
                               has_organization := true;
                               has_plan_name := str_in "plan_name" columns;
                               has_org_type := str_in "org_type" columns;
                               rows := rs |})
          end
      end
  end.

End ProcessCsv.

(* ===================================================================== *)
(** ** Orders used by pandas when it sorts group keys and modes *)
(* ===================================================================== *)

(** strings compare character by character, a proper prefix first *)
Definition str_le (s1 s2 : string) : Prop := String.leb s1 s2 = true.

#[global] Instance str_le_dec : RelDecision str_le.
Proof. intros s1 s2. unfold str_le. apply _. Defined.

(** the key of a county group: [(state, county)], or the state alone when
    the table has no county column *)
Definition county_group_key : Type := string * option string.

Definition key_leb (a b : county_group_key) : bool :=
  if String.eqb a.1 b.1 then
    match a.2, b.2 with
    | Some c1, Some c2 => String.leb c1 c2
    | None, _ => true
    | Some _, None => false
    end
  else String.leb a.1 b.1.

(* ===================================================================== *)
(** ** [DataFrame.groupby] *)
(* ===================================================================== *)

Section GroupBy.

Context {K R : Type} `{EqDecision K}.

(** [le] orders the keys; groups are listed in that order. *)
Variable le : K -> K -> Prop.
Context `{!RelDecision le}.

(** The key of a record; [None] when one of the key cells is missing,
    and the record is then left out of every group ([dropna=True]). *)
Variable key : R -> option K.

Fixpoint add_to_group (k : K) (r : R) (gs : list (K * list R)) : list (K * list R) :=
  match gs with
  | [] => [(k, [r])]
  | (k', g) :: rest =>
      if decide (k = k') then (k', (g ++ [r])%list) :: rest
      else (k', g) :: add_to_group k r rest
  end.

Definition collect_step (gs : list (K * list R)) (r : R) : list (K * list R) :=
  match key r with
  | Some k => add_to_group k r gs
  | None => gs
  end.

(** the groups in order of first appearance, each with its records in
    table order *)
Definition collect_groups (rs : list R) : list (K * list R) :=
  fold_left collect_step rs [].

Definition by_key (a b : K * list R) : Prop := le a.1 b.1.

#[global] Instance by_key_dec : RelDecision by_key.
Proof. intros a b. unfold by_key. apply _. Defined.

(** the groups as iterating over [df.groupby(...)] yields them *)
Definition groupby (rs : list R) : list (K * list R) :=
  merge_sort by_key (collect_groups rs).

(** the records of the table whose key is [k], in table order *)
Definition records_with (k : K) (rs : list R) : list R :=
  filter (fun r => key r = Some k) rs.

(** the record has a key, that is, none of its key cells is missing *)
Definition has_key (r : R) : bool :=
  match key r with Some _ => true | None => false end.

End GroupBy.

(** [dict(...)] of a list of items, later items replacing earlier ones *)
Definition to_dict {V} (items : list (string * V)) : gmap string V :=
  dict_display items.

(** [sum(d.values())] *)
Definition sum_values (d : gmap string Z) : Z :=
  map_fold (fun _ v acc => acc + v) 0 d.

(** the sum of a list of Python ints, which have no bound *)
Definition sum_list (l : list Z) : Z := fold_right Z.add 0 l.

(** An int64 is an integer from -2^63 to 2^63 - 1; arithmetic on an
    int64 column wraps around. *)
Definition wrap64 (z : Z) : Z := (z + 2 ^ 63) mod 2 ^ 64 - 2 ^ 63.

(** [Series.sum()] of an int64 column, also for each group of
    [groupby(...)['enrollment'].sum()] *)
Definition series_sum (l : list Z) : Z := wrap64 (sum_list l).

(** no sum of enrollments of the table can leave the range of int64 *)
Definition no_overflow (l : list Z) : Prop := sum_list (List.map Z.abs l) < 2 ^ 63.

(* ===================================================================== *)
(** ** Aggregator *)
(* ===================================================================== *)

(** A record with the columns [aggregate_enrollment] derives. *)
Record Classified := {
  base : Row;
  plan_type : string;
  parent_org : pyval;
  fips_value : pyval;
}.

(** [r.get(name, '')] *)
Definition get_or_empty (present : bool) (v : pyval) : pyval :=
  if present then v else PyStr "".

Definition classify_row (df : Frame) (r : Row) : option Classified :=
  pt ← identify_plan_type (contract_number r)
          (get_or_empty (has_plan_name df) (plan_name r))
          (get_or_empty (has_org_type df) (org_type r));
  po ← (if has_organization df then Some (organization r)
        else PyStr <$> get_parent_org (contract_number r) (PyStr ""));
  Some {| base := r; plan_type := pt; parent_org := po;
          fips_value := if has_fips df then fips r else PyStr "" |}.

Definition enrollment_sum (g : list Classified) : Z :=
  series_sum (List.map (fun c => enrollment (base c)) g).

(** [g.groupby(col)['enrollment'].sum().to_dict()] *)
Definition sum_by (col : Classified -> pyval) (g : list Classified) : gmap string Z :=
  to_dict (List.map (fun kg => (kg.1, enrollment_sum kg.2))
             (groupby str_le (fun c => as_str (col c)) g)).

Record CountyData := {
  cd_state : string;
  cd_county : string;
  cd_fips : string;
  cd_total : Z;
  cd_by_org : gmap string Z;
  cd_by_plan_type : gmap string Z;
  cd_contracts : gmap string Z;
}.

Record ContractInfo := {
  ci_enrollment : Z;
  ci_parent_org : pyval;
  ci_organization : pyval;
  ci_plan_type : string;
}.

Record Metadata := {
  processed_date : string;
  record_count : nat;
  total_enrollment : Z;
}.

Record Snapshot := {
  metadata : Metadata;
  counties : gmap string CountyData;
  by_org : gmap string Z;
  by_plan_type : gmap string Z;
  by_state : gmap string Z;
  contracts : gmap string ContractInfo;
}.

(** the key of a record in the county grouping *)
Definition county_key_of_row (with_county : bool) (c : Classified)
  : option county_group_key :=
  st ← as_str (state (base c));
  if with_county then
    co ← as_str (county (base c)); Some (st, Some co)
  else Some (st, None).

(** the synthesized key of a group:
    [f"{state}_{county}".replace(' ', '_').lower()], or
    [f"{state}_unknown"] for a group keyed by the state alone *)
Definition county_slug (k : county_group_key) : string :=
  match k.2 with
  | Some county => PyStr.lower (PyStr.replace " "%char "_" (k.1 ++ "_" ++ county))
  | None => k.1 ++ "_unknown"
  end.

(** [group['fips'].dropna().unique()]: the values in order of first
    appearance *)
Definition dropna (l : list pyval) : list string := omap as_str l.

Fixpoint unique (l : list string) : list string :=
  match l with
  | [] => []
  | x :: l' => x :: List.filter (fun y => negb (String.eqb y x)) (unique l')
  end.

(** [fips_values[0] if len(fips_values) > 0 and fips_values[0] else county_key] *)
Definition group_fips (k : county_group_key) (g : list Classified) : string :=
  match unique (dropna (List.map fips_value g)) with
  | f :: _ => if negb (String.eqb f "") then f else county_slug k
  | [] => county_slug k
  end.

Definition county_data (k : county_group_key) (g : list Classified) : CountyData :=
  {| cd_state := k.1;
     cd_county := default "Unknown" k.2;
     cd_fips := group_fips k g;
     cd_total := enrollment_sum g;
     cd_by_org := sum_by parent_org g;
     cd_by_plan_type := sum_by (fun c => PyStr (plan_type c)) g;
     cd_contracts := sum_by (fun c => contract_number (base c)) g |}.

(** the [for keys, group in county_group] loop, storing
    [result['counties'][fips] = county_data] *)
Definition county_loop (groups : list (county_group_key * list Classified))
  : gmap string CountyData :=
  fold_left (fun d kg => <[group_fips kg.1 kg.2 := county_data kg.1 kg.2]> d)
    groups ∅.

Definition key_le (a b : county_group_key) : Prop := key_leb a b = true.

#[global] Instance key_le_dec : RelDecision key_le.
Proof. intros a b. unfold key_le. apply _. Defined.

(** [df.groupby(['state', 'county'] if 'county' in df.columns else ['state'])] *)
Definition county_group (with_county : bool) (rs : list Classified)
  : list (county_group_key * list Classified) :=
  groupby key_le (county_key_of_row with_county) rs.

(** *** Per-contract summary *)

(** number of occurrences of [v] in [l] *)
Definition occurrences (v : string) (l : list string) : nat :=
  length (List.filter (String.eqb v) l).

Definition max_occurrences (l : list string) : nat :=
  fold_right Nat.max O (List.map (fun v => occurrences v l) l).

(** [Series.mode()]: the most frequent values, sorted *)
Definition mode (l : list string) : list string :=
  merge_sort str_le
    (List.filter (fun v => Nat.eqb (occurrences v l) (max_occurrences l)) (unique l)).

(** [lambda x: x.mode().iloc[0] if len(x.mode()) > 0 else 'Unknown'] *)
Definition mode_or_unknown (l : list string) : string :=
  match mode l with
  | v :: _ => v
  | [] => "Unknown"
  end.

(** the groupby aggregation ['first']: the first value of the group that
    is not missing, NaN when there is none *)
Definition agg_first (l : list pyval) : pyval :=
  match dropna l with
  | s :: _ => PyStr s
  | [] => PyNaN
  end.

Definition contract_summary (with_organization : bool) (g : list Classified)
  : ContractInfo :=
  let first_parent := agg_first (List.map parent_org g) in
  {| ci_enrollment := enrollment_sum g;
     ci_parent_org := first_parent;
     ci_organization :=
       if with_organization
       then agg_first (List.map (fun c => organization (base c)) g)
       else first_parent;
     ci_plan_type := mode_or_unknown (List.map plan_type g) |}.

(** [df.groupby('contract_number').agg(agg_dict).to_dict('index')] and
    the dict comprehension over it *)
Definition contract_details (with_organization : bool) (rs : list Classified)
  : gmap string ContractInfo :=
  to_dict (List.map (fun kg => (kg.1, contract_summary with_organization kg.2))
             (groupby str_le (fun c => as_str (contract_number (base c))) rs)).

(** [aggregate_enrollment]; [now] is [datetime.now().isoformat()].
    [None] stands for an exception, raised at one of three places: the
    assignment of [df.apply] for a table without records, the computation
    of a derived column for one record, and [state, county = keys] in the
    county loop when the grouping is by the state alone and its keys are
    tuples of length one.  With scalar keys the [else] branch of the loop
    is taken.  The table is taken to have no repeated column name. *)
Definition aggregate_enrollment (pd : Pandas) (now : string) (df : Frame)
  : option Snapshot :=
  if empty_apply_raises pd && bool_decide (rows df = []) then None
  else
    rs ← mapM (classify_row df) (rows df);
    let groups := county_group (has_county df) rs in
    if negb (has_county df) && negb (scalar_group_keys pd)
       && negb (bool_decide (groups = []))
    then None
    else
      Some {| metadata := {| processed_date := now;
                             record_count := length (rows df);
                             total_enrollment :=
                               series_sum (List.map enrollment (rows df)) |};
              counties := county_loop groups;
              by_org := sum_by parent_org rs;
              by_plan_type := sum_by (fun c => PyStr (plan_type c)) rs;
              by_state := sum_by (fun c => state (base c)) rs;
              contracts := contract_details (has_organization df) rs |}.


(** Small tables for the examples. *)
Definition mk_row (c s co f : pyval) (n : Z) (pn : pyval) : Row :=
  {| contract_number := c; state := s; county := co; fips := f; enrollment := n;
     organization := PyNaN; plan_name := pn; org_type := PyNaN |}.

Definition mk_frame (with_county with_fips with_plan_name : bool) (rs : list Row) : Frame :=
  {| has_county := with_county; has_fips := with_fips; has_organization := false;
     has_plan_name := with_plan_name; has_org_type := false; rows := rs |}.

Definition scenario : Frame :=
  mk_frame true false false
    [ mk_row (PyStr "H0028") (PyStr "CA") (PyStr "Los Angeles") PyNaN 150 PyNaN;
      mk_row (PyStr "H9999") (PyStr "NY") (PyStr "Kings") PyNaN 0 PyNaN ].

(* ===================================================================== *)
(** ** Delta engine ([calculate_changes]) *)
(* ===================================================================== *)

Section Delta.

(** Python floats and the three float operations the function uses:
    the quotient of two ints with a non-zero divisor, [x * 100], and
    [round(x, 2)].  The ints are enrollment counts, well within the range
    in which the quotient of two ints is a finite float. *)
Variable float : Type.
Variable fdiv : Z -> Z -> float.
Variable times100 : float -> float.
Variable round2 : float -> float.

(** [a / b]: [None] stands for [ZeroDivisionError] *)
Definition truediv (a b : Z) : option float :=
  if b =? 0 then None else Some (fdiv a b).

(** a [change_pct] is the int [0] or a rounded float *)
Inductive pct : Type :=
| PctInt (z : Z)
| PctFloat (x : float).

Record Change := {
  ch_current : Z;
  ch_december : Z;
  ch_change : Z;
  ch_change_pct : pct;
}.

Record Summary := {
  total_current : Z;
  total_december : Z;
  total_change : Z;
  total_change_pct : pct;
}.

Record ChangeSet := {
  chg_counties : gmap string Change;
  chg_by_org : gmap string Change;
  chg_by_state : gmap string Change;
  chg_summary : Summary;
}.

(** [round((change / dec_total * 100), 2) if dec_total > 0 else 0] *)
Definition change_pct_of (change dec_total : Z) : option pct :=
  if 0 <? dec_total then
    q ← truediv change dec_total;
    Some (PctFloat (round2 (times100 q)))
  else Some (PctInt 0).

(** the body shared by the three loops *)
Definition change_entry (curr_total dec_total : Z) : option Change :=
  let change := curr_total - dec_total in
  p ← change_pct_of change dec_total;
  Some {| ch_current := curr_total; ch_december := dec_total;
          ch_change := change; ch_change_pct := p |}.

(** [for k, curr_total in current.items(): ... changes[k] = {...}] with
    the baseline read by [december.get(k, 0)] *)
Definition change_loop {A B} (total_a : A -> Z) (total_b : B -> Z)
    (current : gmap string A) (december : gmap string B)
  : option (gmap string Change) :=
  map_fold
    (fun k a acc =>
       d ← acc;
       e ← change_entry (total_a a) (from_option total_b 0 (december !! k));
       Some (<[k := e]> d))
    (Some ∅) current.

Definition calculate_changes (current december : Snapshot) : option ChangeSet :=
  let tc := total_enrollment (metadata current) in
  let td := total_enrollment (metadata december) in
  let total_change := tc - td in
  p ← (if 0 <? td
       then q ← truediv total_change td; Some (PctFloat (round2 (times100 q)))
       else Some (PctInt 0));
  cs ← change_loop cd_total cd_total (counties current) (counties december);
  os ← change_loop id id (by_org current) (by_org december);
  ss ← change_loop id id (by_state current) (by_state december);
  Some {| chg_counties := cs; chg_by_org := os; chg_by_state := ss;
          chg_summary := {| total_current := tc; total_december := td;
                            total_change := total_change;
                            total_change_pct := p |} |}.

End Delta.

Arguments PctInt {float} z.
Arguments PctFloat {float} x.
Arguments ch_current {float} c.
Arguments ch_december {float} c.
Arguments ch_change {float} c.
Arguments ch_change_pct {float} c.
Arguments total_current {float} s.
Arguments total_december {float} s.
Arguments total_change {float} s.
Arguments total_change_pct {float} s.
Arguments chg_counties {float} c.
Arguments chg_by_org {float} c.
Arguments chg_by_state {float} c.
Arguments chg_summary {float} c.
Arguments truediv {float} fdiv a b.
Arguments change_pct_of {float} fdiv times100 round2 change dec_total.
Arguments change_entry {float} fdiv times100 round2 curr_total dec_total.
Arguments change_loop {float} fdiv times100 round2 {A B} total_a total_b current december.
Arguments calculate_changes {float} fdiv times100 round2 current december.

(* ===================================================================== *)
(** ** The rules in the words of the specification *)

(** the text of a value, the empty string when it is missing *)
Definition text (v : pyval) : string :=
  match v with
  | PyStr s => s
  | _ => ""
  end.





(** The resolution order of the parent organization as the specification
    words it. *)
Definition resolve_parent_org_spec (lookup : gmap string string)
    (contract_number org_name : string) : string :=
  if String.eqb contract_number "" then "Other"
  else
    match lookup !! contract_number with
    | Some org => org
    | None =>
        match PARENT_ORG_MAPPING !! PyStr.take 5 contract_number with
        | Some org => org
        | None =>
            match List.find
                    (fun entry =>
                       existsb (fun kw => PyStr.contains kw (PyStr.lower org_name))
                         entry.2) org_keywords with
            | Some entry => entry.1
            | None => "Other"
            end
        end
    end.

(** a prefix defined at least twice has different first and last
    definitions *)
Definition redefined_differently {V} (eqb : V -> V -> bool)
    (items : list (string * V)) (k : string) : bool :=
  if (2 <=? times_defined k items)%nat then
    match first_defined k items, last_defined k items with
    | Some a, Some b => negb (eqb a b)
    | _, _ => false
    end
  else true.







(** A required field has a matching column after synonym mapping: one of
    the variations listed for it is the standardized name of a column. *)
Definition has_match (columns : list string) (field : string) : bool :=
  match List.find (fun m => String.eqb m.1 field) column_mappings with
  | Some (_, variations) => existsb (fun var => str_in var columns) variations
  | None => false
  end.

Definition missing_fields_spec (raw : list string) : list string :=
  List.filter (fun field => negb (has_match (List.map standardize_column raw) field))
    required.

(** one round of the loop that builds [renamed] *)
Definition rename_step (columns : list string) (renamed : gmap string string)
    (m : string * list string) : gmap string string :=
  match first_present columns m.2 with
  | Some var => <[var := m.1]> renamed
  | None => renamed
  end.

(** no string occurs twice *)
Fixpoint distinct (l : list string) : bool :=
  match l with
  | [] => true
  | x :: l' => negb (str_in x l') && distinct l'
  end.

(** two headers that lack every required column *)
Definition headers_a : RawTable := {| raw_columns := ["Plan"]; raw_rows := [] |}.
Definition headers_b : RawTable := {| raw_columns := ["Region"]; raw_rows := [] |}.

Section DeltaSpec.

Variable float : Type.
Variable fdiv : Z -> Z -> float.
Variable times100 : float -> float.
Variable round2 : float -> float.

(** The entry of one key as the specification words it: the change is
    current minus baseline, and the percentage is the rounded quotient
    when the baseline is strictly positive and the integer 0 otherwise. *)
Definition change_spec (curr_total baseline : Z) : Change float :=
  {| ch_current := curr_total;
     ch_december := baseline;
     ch_change := curr_total - baseline;
     ch_change_pct :=
       if 0 <? baseline
       then PctFloat (round2 (times100 (fdiv (curr_total - baseline) baseline)))
       else PctInt 0 |}.

Definition summary_spec (curr_total baseline : Z) : Summary float :=
  {| total_current := curr_total;
     total_december := baseline;
     total_change := curr_total - baseline;
     total_change_pct :=
       if 0 <? baseline
       then PctFloat (round2 (times100 (fdiv (curr_total - baseline) baseline)))
       else PctInt 0 |}.

End DeltaSpec.

Arguments change_spec {float} fdiv times100 round2 curr_total baseline.
Arguments summary_spec {float} fdiv times100 round2 curr_total baseline.




(** the entry of a dimension for the records of one key: absent when
    there is no record, and else their enrollments added up with [sum] *)
Definition group_total (sum : list Z -> Z) (l : list Row) : option Z :=
  match l with
  | [] => None
  | _ :: _ => Some (sum (List.map enrollment l))
  end.

(** the records whose cell [col] holds the string [s] *)
Definition rows_with (col : Row -> pyval) (s : string) (l : list Row) : list Row :=
  List.filter (fun r => bool_decide (col r = PyStr s)) l.

(** a table with an organization column, one record without a state and
    one without an organization *)
Definition gaps_frame : Frame :=
  {| has_county := true; has_fips := false; has_organization := true;
     has_plan_name := false; has_org_type := false;
     rows :=
       [ {| contract_number := PyStr "H0028"; state := PyStr "CA";
            county := PyStr "Los Angeles";
            fips := PyNaN; enrollment := 150; organization := PyStr "Humana";
            plan_name := PyNaN; org_type := PyNaN |};
         {| contract_number := PyStr "H9999"; state := PyNaN; county := PyStr "Kings";
            fips := PyNaN; enrollment := 7; organization := PyStr "Humana";
            plan_name := PyNaN; org_type := PyNaN |};
         {| contract_number := PyStr "R1234"; state := PyStr "CA"; county := PyStr "Orange";
            fips := PyNaN; enrollment := 40; organization := PyNaN;
            plan_name := PyNaN; org_type := PyNaN |} ] |}.

(** the same records in a table without a county column *)
Definition state_only_frame : Frame :=
  {| has_county := false; has_fips := false; has_organization := true;
     has_plan_name := false; has_org_type := false;
     rows := rows gaps_frame |}.

(** two records whose enrollments add up to 2^63 *)
Definition overflow_frame : Frame :=
  mk_frame true false false
    [ mk_row (PyStr "H0028") (PyStr "CA") (PyStr "Los Angeles") PyNaN (2 ^ 62) PyNaN;
      mk_row (PyStr "H0028") (PyStr "CA") (PyStr "Los Angeles") PyNaN (2 ^ 62) PyNaN ].

(** one contract with as many PPO records as HMO records, the PPO record
    first, and no organization on its first record *)
Definition tie_frame : Frame :=
  {| has_county := true; has_fips := false; has_organization := true;
     has_plan_name := true; has_org_type := false;
     rows :=
       [ {| contract_number := PyStr "H1234"; state := PyStr "CA";
            county := PyStr "Los Angeles";
            fips := PyNaN; enrollment := 10; organization := PyNaN;
            plan_name := PyStr "Sample PPO Plan"; org_type := PyNaN |};
         {| contract_number := PyStr "H1234"; state := PyStr "CA";
            county := PyStr "Los Angeles";
            fips := PyNaN; enrollment := 20; organization := PyStr "Acme Health";
            plan_name := PyStr "Sample Plan"; org_type := PyNaN |} ] |}.

(** its records with the derived columns *)
Definition tie_rows : list Classified :=
  default [] (mapM (classify_row tie_frame) (rows tie_frame)).

(** a record can be given its plan type: its contract number is not
    missing and, unless that is empty, neither are its plan name and
    organization type in a table that has these columns *)
Definition classifiable (df : Frame) (r : Row) : Prop :=
  contract_number r <> PyNaN
  /\ (truthy (contract_number r) = true ->
      (has_plan_name df = true -> plan_name r <> PyNaN)
      /\ (has_org_type df = true -> org_type r <> PyNaN)).

(** a table whose second record has no plan name *)
Definition blank_name_frame : Frame :=
  {| has_county := true; has_fips := false; has_organization := true;
     has_plan_name := true; has_org_type := false;
     rows :=
       [ {| contract_number := PyStr "H1234"; state := PyStr "CA";
            county := PyStr "Los Angeles";
            fips := PyNaN; enrollment := 10; organization := PyStr "Acme Health";
            plan_name := PyStr "Sample PPO Plan"; org_type := PyNaN |};
         {| contract_number := PyStr "H1234"; state := PyStr "CA";
            county := PyStr "Los Angeles";
            fips := PyNaN; enrollment := 20; organization := PyStr "Acme Health";
            plan_name := PyNaN; org_type := PyNaN |} ] |}.


(** two snapshots: a state that left, a state that stayed, a state that
    is new *)
Definition snapshot_of_states (total : Z) (states : list (string * Z)) : Snapshot :=
  {| metadata := {| processed_date := "2025-01-01"; record_count := O;
                    total_enrollment := total |};
     counties := ∅; by_org := ∅; by_plan_type := ∅;
     by_state := list_to_map states; contracts := ∅ |}.

Definition december_example : Snapshot :=
  snapshot_of_states 300 [("CA", 100); ("NY", 200)].

Definition current_example : Snapshot :=
  snapshot_of_states 170 [("CA", 120); ("TX", 50)].

(** a table with synonyms of the required columns and a masked cell *)
Definition masked_table : RawTable :=
  {| raw_columns := [" Contract ID"; "State Code"; "Enrolled"; "Plan Name"];
     raw_rows := [ [PyStr "H0028"; PyStr "CA"; PyStr "1,234"; PyStr "Gold"];
                   [PyStr "H5521"; PyStr "NY"; PyStr "*"; PyNaN] ] |}.

(** the organizations that the static table and the keyword table name,
    and the fallback *)
Definition parent_orgs : list string :=
  ["UnitedHealth Group"; "CVS Health (Aetna)"; "Humana"; "Elevance Health (Anthem)";
   "Centene"; "Kaiser Permanente"; "Cigna"; "Molina Healthcare"; "BCBS"; "Other"].

(** The columns that [load_contract_info] reads, [(contract_col,
    parent_col)]: for each of the two, the first name of its list that is
    a column of the standardized header; [None] when one is lacking. *)
Definition parent_col_names : list string :=
  ["parent_organization"; "parent_org"; "organization"; "organization_name"].

Definition contract_col_names : list string :=
  ["contract_number"; "contract_id"; "contractid"].

Definition contract_info_columns (columns : list string) : option (string * string) :=
  match first_present columns parent_col_names,
        first_present columns contract_col_names with
  | Some parent_col, Some contract_col => Some (contract_col, parent_col)
  | _, _ => None
  end.

(** the two cells of each row that the loop over [df.iterrows()] reads *)
Definition contract_info_cells (raw : RawTable) : option (list (pyval * pyval)) :=
  let columns := List.map standardize_column (raw_columns raw) in
  match contract_info_columns columns with
  | Some (contract_col, parent_col) =>
      Some (List.map (fun r => (cell_of columns contract_col r,
                                cell_of columns parent_col r)) (raw_rows raw))
  | None => None
  end.

(** [load_contract_info] from the directory listing on: [file] is the
    first contract-info file as [read_csv] returns it, [None] when there
    is no such file or it cannot be read; the header is taken to have no
    repeated name. *)
Definition load_contract_info_file (file : option RawTable) : gmap string string :=
  match file with
  | None => ∅
  | Some raw =>
      match contract_info_cells raw with
      | Some cells => load_contract_info cells
      | None => ∅
      end
  end.

(** the item that a row of the contract-info table writes, if any *)
Definition contract_info_item (row : pyval * pyval) : option (string * string) :=
  match row with
  | (PyStr contract, PyStr org) => Some (contract, org)
  | _ => None
  end.

(* ===================================================================== *)
(** ** The download script ([fetch_cms_data.py]) *)
(* ===================================================================== *)

Module FetchCmsData.

(** [get_current_data_month], from the year, month and day of
    [datetime.now()]: the (year, month) of the release to fetch. *)
Definition get_current_data_month (today_year today_month today_day : Z) : Z * Z :=
  let month_offset := if today_day <? 15 then 2 else 1 in
  let data_month := today_month - month_offset in
  if data_month <=? 0 then (today_year - 1, data_month + 12)
  else (today_year, data_month).

(** [s.endswith(suffix)] *)
Definition endswith (suffix s : string) : bool :=
  let n := String.length s in
  let m := String.length suffix in
  (m <=? n)%nat && String.eqb (String.substring (n - m) m s) suffix.

(** An archive as [zipfile.ZipFile] presents it: the members in the order
    of [namelist()], each with its [file_size]. *)
Definition ZipFile : Type := list (string * Z).

Definition namelist (zf : ZipFile) : list string := zf.*1.

(** [zf.getinfo(f).file_size]; of two members with one name, the archive
    answers for the later one.  Only asked for names of the archive. *)
Definition file_size (zf : ZipFile) (f : string) : Z :=
  default 0 (last_defined f zf).

(** [[f for f in zf.namelist() if f.lower().endswith('.csv')]] *)
Definition csv_files (zf : ZipFile) : list string :=
  List.filter (fun f => endswith ".csv" (PyStr.lower f)) (namelist zf).

(** the two tests of the loop over [csv_files] *)
Definition is_enrollment_name (f : string) : bool :=
  let f_lower := PyStr.lower f in
  PyStr.contains "enrollment" f_lower && negb (PyStr.contains "contract_info" f_lower).

Definition is_contract_info_name (f : string) : bool :=
  let f_lower := PyStr.lower f in
  negb (is_enrollment_name f)
  && (PyStr.contains "contract" f_lower && PyStr.contains "info" f_lower).

(** one round of the loop: [(enrollment_file, contract_file)] *)
Definition pick_step (picked : option string * option string) (f : string)
  : option string * option string :=
  let f_lower := PyStr.lower f in
  if PyStr.contains "enrollment" f_lower
     && negb (PyStr.contains "contract_info" f_lower)
  then (Some f, picked.2)
  else if PyStr.contains "contract" f_lower && PyStr.contains "info" f_lower
  then (picked.1, Some f)
  else picked.

(** [file_sizes.sort(key=lambda x: x[1], reverse=True)]: by decreasing
    size, members of equal size in their original order *)
Fixpoint insert_desc (x : string * Z) (l : list (string * Z)) : list (string * Z) :=
  match l with
  | [] => [x]
  | y :: l' => if y.2 <=? x.2 then x :: l else y :: insert_desc x l'
  end.

Definition sort_desc (l : list (string * Z)) : list (string * Z) :=
  fold_right insert_desc [] l.

(** The choice that [extract_zip] makes: the member saved as the
    enrollment CSV, and the member saved as the contract-info CSV if
    any.  [None] stands for the [RuntimeError] raised when the archive
    has no CSV member. *)
Definition extract_zip_members (zf : ZipFile) : option (string * option string) :=
  match csv_files zf with
  | [] => None
  | _ :: _ =>
      let picked := fold_left pick_step (csv_files zf) (None, None) in
      let enrollment_file :=
        match picked.1 with
        | Some f => f
        | None =>
            match sort_desc (List.map (fun f => (f, file_size zf f)) (csv_files zf)) with
            | (f, _) :: _ => f
            | [] => ""
            end
        end in
      Some (enrollment_file, picked.2)
  end.

(** [l[i]] on a Python list: a negative index counts from the end, and
    an index outside [-len(l), len(l)) raises [IndexError] ([None]). *)
Definition py_index {A} (l : list A) (i : Z) : option A :=
  let n := Z.of_nat (length l) in
  if (0 <=? i) && (i <? n) then l !! Z.to_nat i
  else if (- n <=? i) && (i <? 0) then l !! Z.to_nat (i + n)
  else None.

Definition month_names : list string :=
  ["january"; "february"; "march"; "april"; "may"; "june";
   "july"; "august"; "september"; "october"; "november"; "december"].

(** [month_name = month_names[month - 1]] in [fetch_cpsc_data] *)
Definition month_name (month : Z) : option string :=
  py_index month_names (month - 1).

(** The (year, month) that [main] hands to [fetch_cpsc_data]: the two
    arguments when both are given and true (an int is true when it is not
    zero), the detected release otherwise. *)
Definition main_data_month (args_year args_month : option Z)
    (today_year today_month today_day : Z) : Z * Z :=
  match args_year, args_month with
  | Some year, Some month =>
      if negb (year =? 0) && negb (month =? 0) then (year, month)
      else FetchCmsData.get_current_data_month today_year today_month today_day
  | _, _ => FetchCmsData.get_current_data_month today_year today_month today_day
  end.

End FetchCmsData.


(* ===================================================================== *)
(** * Properties *)
(* ===================================================================== *)

(** ** The order on strings *)

Lemma ascii_compare_lt_trans a b c :
  Ascii.compare a b = Lt -> Ascii.compare b c = Lt -> Ascii.compare a c = Lt.
Proof.
  unfold Ascii.compare. rewrite !N.compare_lt_iff. lia.
Qed.

Lemma string_compare_trans_lt s1 : forall s2 s3,
  String.compare s1 s2 <> Gt -> String.compare s2 s3 <> Gt ->
  String.compare s1 s3 <> Gt.
Proof.
  induction s1 as [|a s1 IH]; intros [|b s2] [|c s3]; simpl; try congruence.
  destruct (Ascii.compare a b) eqn:Hab; try congruence;
  destruct (Ascii.compare b c) eqn:Hbc; try congruence; intros H1 H2.
  - apply Ascii.compare_eq_iff in Hab, Hbc. subst.
    rewrite (proj2 (N.compare_eq_iff _ _) eq_refl : Ascii.compare c c = Eq).
    eauto.
  - apply Ascii.compare_eq_iff in Hab. subst. rewrite Hbc. congruence.
  - apply Ascii.compare_eq_iff in Hbc. subst. rewrite Hab. congruence.
  - rewrite (ascii_compare_lt_trans _ _ _ Hab Hbc). congruence.
Qed.

Lemma str_le_compare s1 s2 : str_le s1 s2 <-> String.compare s1 s2 <> Gt.
Proof.
  unfold str_le, String.leb. destruct (String.compare s1 s2); split; congruence.
Qed.

#[global] Instance str_le_trans : Transitive str_le.
Proof.
  intros x y z. rewrite !str_le_compare. apply string_compare_trans_lt.
Qed.

#[global] Instance str_le_total : Total str_le.
Proof. intros x y. apply String.leb_total. Qed.

#[global] Instance str_le_refl : Reflexive str_le.
Proof. intros x. destruct (String.leb_total x x); assumption. Qed.

#[global] Instance str_le_antisym : AntiSymm (=) str_le.
Proof. intros x y. apply String.leb_antisym. Qed.

(** *** Dict displays *)

Section DictDisplay.
Context {V : Type}.
Implicit Types (items : list (string * V)) (d : gmap string V).

Lemma fold_insert_snoc items kv d :
  fold_left (fun d kv => <[kv.1 := kv.2]> d) (items ++ [kv]) d
  = <[kv.1 := kv.2]> (fold_left (fun d kv => <[kv.1 := kv.2]> d) items d).
Proof. by rewrite fold_left_app. Qed.

Lemma dict_display_lookup items k :
  dict_display items !! k = last_defined k items.
Proof.
  unfold dict_display, last_defined, first_defined.
  induction items as [|kv items IH] using rev_ind; [done|].
  rewrite fold_insert_snoc, rev_app_distr. simpl.
  destruct (String.eqb_spec kv.1 k) as [->|Hne].
  - by rewrite lookup_insert_eq.
  - by rewrite lookup_insert_ne.
Qed.

Lemma fold_insert_fresh items d k :
  k ∉ items.*1 ->
  fold_left (fun d kv => <[kv.1 := kv.2]> d) items d !! k = d !! k.
Proof.
  revert d. induction items as [|kv items IH]; intros d Hk; [done|].
  simpl in *. apply not_elem_of_cons in Hk as [Hne Hk].
  rewrite IH by done. by rewrite lookup_insert_ne.
Qed.

Lemma fold_insert_lookup_NoDup items d k v :
  NoDup items.*1 ->
  fold_left (fun d kv => <[kv.1 := kv.2]> d) items d !! k = Some v <->
  (k, v) ∈ items \/ ((k ∉ items.*1) /\ d !! k = Some v).
Proof.
  revert d. induction items as [|[k' v'] items IH]; intros d Hnd; simpl.
  - split; [intros ?; right; split; [apply not_elem_of_nil|done]|].
    intros [H|[_ H]]; [by apply elem_of_nil in H|done].
  - apply NoDup_cons in Hnd as [Hk' Hnd]. rewrite IH by done.
    rewrite elem_of_cons, not_elem_of_cons. destruct (decide (k = k')) as [->|Hne].
    + rewrite lookup_insert_eq. split.
      * intros [H|[_ H]]; [|left; left; congruence].
        exfalso. apply Hk'. apply list_elem_of_fmap. by exists (k', v).
      * intros [[H|H]|[[H _] _]]; [|left; done|done].
        right. split; [done|congruence].
    + rewrite lookup_insert_ne by done. split.
      * intros [H|[H1 H2]]; [left; by right|right; done].
      * intros [[H|H]|[[_ H1] H2]]; [congruence|by left|by right].
Qed.

Lemma to_dict_lookup_NoDup items k v :
  NoDup items.*1 ->
  to_dict items !! k = Some v <-> (k, v) ∈ items.
Proof.
  intros Hnd. unfold to_dict, dict_display.
  rewrite fold_insert_lookup_NoDup by done. rewrite lookup_empty.
  split; [intros [H|[_ H]]; done|by left].
Qed.

(** the sum of [f] over the values of a dict *)
Lemma sum_fold_insert (f : V -> Z) d k v :
  d !! k = None ->
  map_fold (fun _ a acc => acc + f a) 0 (<[k := v]> d)
  = map_fold (fun _ a acc => acc + f a) 0 d + f v.
Proof.
  intros Hk. rewrite map_fold_insert_L; [done| |done].
  intros. lia.
Qed.

Lemma sum_fold_inserts (f : V -> Z) items d :
  NoDup items.*1 -> (forall k, k ∈ items.*1 -> d !! k = None) ->
  map_fold (fun _ a acc => acc + f a) 0
    (fold_left (fun d kv => <[kv.1 := kv.2]> d) items d)
  = map_fold (fun _ a acc => acc + f a) 0 d + sum_list (List.map (fun kv => f kv.2) items).
Proof.
  revert d. induction items as [|[k v] items IH]; intros d Hnd Hfresh; simpl.
  - lia.
  - apply NoDup_cons in Hnd as [Hk Hnd]. rewrite IH; [|done|].
    + rewrite sum_fold_insert; [lia|]. apply Hfresh. simpl. left.
    + intros k' Hk'. rewrite lookup_insert_ne.
      * apply Hfresh. simpl. by right.
      * intros ->. done.
Qed.

Lemma sum_to_dict (f : V -> Z) items :
  NoDup items.*1 ->
  map_fold (fun _ a acc => acc + f a) 0 (to_dict items)
  = sum_list (List.map (fun kv => f kv.2) items).
Proof.
  intros Hnd. unfold to_dict, dict_display. rewrite sum_fold_inserts; [|done|].
  - by rewrite map_fold_empty.
  - intros. apply lookup_empty.
Qed.
End DictDisplay.

Lemma sum_list_app l1 l2 : sum_list (l1 ++ l2) = sum_list l1 + sum_list l2.
Proof. induction l1; simpl; lia. Qed.

Lemma sum_list_Permutation l1 l2 : l1 ≡ₚ l2 -> sum_list l1 = sum_list l2.
Proof. induction 1; simpl; lia. Qed.

(** *** Group-by *)

Section GroupByFacts.
Context {K R : Type} `{EqDecision K}.
Variable le : K -> K -> Prop.
Context `{!RelDecision le}.
Variable key : R -> option K.
Implicit Types (gs : list (K * list R)) (rs : list R).

Lemma add_to_group_keys k r gs :
  (add_to_group k r gs).*1 = if decide (k ∈ gs.*1) then gs.*1 else (gs.*1 ++ [k])%list.
Proof.
  induction gs as [|[k' g] gs IH].
  - simpl. destruct (decide (k ∈ [])) as [H|_]; [by apply elem_of_nil in H|done].
  - cbn [add_to_group]. destruct (decide (k = k')) as [->|Hne].
    + destruct (decide (k' ∈ ((k', g) :: gs).*1)) as [_|H]; [done|].
      exfalso. apply H. simpl. left.
    + rewrite !fmap_cons, IH. cbn [fst].
      destruct (decide (k ∈ gs.*1)) as [Hin|Hnin];
        destruct (decide (k ∈ k' :: gs.*1)) as [Hin'|Hnin']; try done.
      * exfalso. apply Hnin'. by right.
      * exfalso. by apply elem_of_cons in Hin' as [?|?].
Qed.

Lemma add_to_group_NoDup k r gs : NoDup gs.*1 -> NoDup (add_to_group k r gs).*1.
Proof.
  intros Hnd. rewrite add_to_group_keys. case_decide; [done|].
  apply NoDup_app. split_and!; [done| |apply NoDup_singleton].
  intros x Hx ->%list_elem_of_singleton. done.
Qed.

Lemma add_to_group_elem k r gs k' g' :
  NoDup gs.*1 ->
  (k', g') ∈ add_to_group k r gs <->
  (k' <> k /\ (k', g') ∈ gs)
  \/ (k' = k /\ ((exists g, (k, g) ∈ gs /\ g' = (g ++ [r])%list)
                \/ ((k ∉ gs.*1) /\ g' = [r]))).
Proof.
  induction gs as [|[k0 g0] gs IH]; intros Hnd; cbn [add_to_group].
  - rewrite list_elem_of_singleton. split.
    + intros [= -> ->]. right. split; [done|]. right. split; [apply not_elem_of_nil|done].
    + intros [[_ H]|[-> [(g & H & _)|[_ ->]]]]; [by apply elem_of_nil in H| |done].
      by apply elem_of_nil in H.
  - apply NoDup_cons in Hnd as [Hk0 Hnd].
    assert (Hk0' : forall g, (k0, g) ∈ gs -> False).
    { intros g Hin. apply Hk0. apply list_elem_of_fmap. by exists (k0, g). }
    assert (Hfst : forall k1, k1 ∈ ((k0, g0) :: gs).*1 <-> k1 = k0 \/ k1 ∈ gs.*1).
    { intros k1. rewrite fmap_cons. cbn [fst]. apply elem_of_cons. }
    destruct (decide (k = k0)) as [->|Hne].
    + rewrite elem_of_cons. split.
      * intros [[= -> ->]|Hin].
        -- right. split; [done|]. left. exists g0. split; [left|done].
        -- left. split; [|by right]. intros ->. by eapply Hk0'.
      * intros [[Hne Hin]|[-> [(g & Hin & ->)|[Hnin ->]]]].
        -- apply elem_of_cons in Hin as [[= ? ?]|Hin]; [done|by right].
        -- apply elem_of_cons in Hin as [[= ->]|Hin]; [by left|].
           exfalso. by eapply Hk0'.
        -- exfalso. apply Hnin, Hfst. by left.
    + rewrite elem_of_cons, IH by done. split.
      * intros [[= -> ->]|[[Hne' Hin]|[-> [(g & Hin & ->)|[Hnin ->]]]]].
        -- left. split; [congruence|left].
        -- left. split; [done|by right].
        -- right. split; [done|]. left. exists g. split; [by right|done].
        -- right. split; [done|]. right. split; [|done].
           rewrite Hfst. by intros [?|?].
      * intros [[Hne' Hin]|[-> [(g & Hin & ->)|[Hnin ->]]]].
        -- apply elem_of_cons in Hin as [[= -> ->]|Hin]; [by left|].
           right. left. done.
        -- right. right. split; [done|]. left. exists g. split; [|done].
           apply elem_of_cons in Hin as [[= ? ?]|Hin]; [congruence|done].
        -- right. right. split; [done|]. right. split; [|done].
           intros Hin. apply Hnin, Hfst. by right.
Qed.

Lemma collect_groups_snoc rs r :
  collect_groups key (rs ++ [r]) = collect_step key (collect_groups key rs) r.
Proof. unfold collect_groups. by rewrite fold_left_app. Qed.

Lemma collect_groups_NoDup rs : NoDup (collect_groups key rs).*1.
Proof.
  induction rs as [|r rs IH] using rev_ind; [apply NoDup_nil_2|].
  rewrite collect_groups_snoc. unfold collect_step.
  destruct (key r); [by apply add_to_group_NoDup|done].
Qed.

Lemma collect_groups_elem rs k g :
  (k, g) ∈ collect_groups key rs <-> g = records_with key k rs /\ g <> [].
Proof.
  revert k g. induction rs as [|r rs IH] using rev_ind; intros k g.
  - split; [intros H; by apply elem_of_nil in H|]. intros [-> H]. done.
  - rewrite collect_groups_snoc. unfold collect_step, records_with.
    rewrite filter_app. fold (records_with key k rs).
    destruct (key r) as [kr|] eqn:Hkr.
    + rewrite add_to_group_elem by apply collect_groups_NoDup.
      rewrite filter_cons, filter_nil. rewrite Hkr.
      split.
      * intros [[Hne Hin]|[-> [(g0 & Hin & ->)|[Hnin ->]]]].
        -- apply IH in Hin as [-> Hg]. rewrite decide_False by congruence.
           rewrite app_nil_r. done.
        -- apply IH in Hin as [-> Hg]. rewrite decide_True by done.
           split; [done|]. by intros [? ?]%app_eq_nil.
        -- rewrite decide_True by done. split; [|done].
           destruct (records_with key kr rs) as [|x l] eqn:Hrw; [done|].
           exfalso. apply Hnin. apply list_elem_of_fmap.
           exists (kr, x :: l). split; [done|]. apply IH. by rewrite Hrw.
      * intros [-> Hg]. destruct (decide (Some kr = Some k)) as [[= ->]|Hne].
        -- right. split; [done|].
           destruct (records_with key k rs) as [|x l] eqn:Hrw.
           ++ right. split; [|done]. intros ((k', g') & Hk' & Hin)%list_elem_of_fmap.
              simpl in Hk'. subst k'. apply IH in Hin as [-> Hg']. by rewrite Hrw in Hg'.
           ++ left. exists (x :: l). split; [|done]. apply IH. by rewrite Hrw.
        -- left. split; [congruence|]. apply IH. rewrite app_nil_r in *. done.
    + rewrite filter_cons, filter_nil, Hkr. rewrite decide_False by done.
      rewrite app_nil_r. apply IH.
Qed.

Lemma groupby_Permutation rs : groupby le key rs ≡ₚ collect_groups key rs.
Proof. apply merge_sort_Permutation. Qed.

Lemma groupby_NoDup rs : NoDup (groupby le key rs).*1.
Proof.
  rewrite groupby_Permutation. apply collect_groups_NoDup.
Qed.

Lemma groupby_elem rs k g :
  (k, g) ∈ groupby le key rs <-> g = records_with key k rs /\ g <> [].
Proof. rewrite groupby_Permutation. apply collect_groups_elem. Qed.

(** every record with a key is in exactly one group: sums over the
    groups add up to the sum over the records that have a key *)
Lemma add_to_group_sum (f : R -> Z) k r gs :
  sum_list (List.map (fun kg => sum_list (List.map f kg.2)) (add_to_group k r gs))
  = sum_list (List.map (fun kg => sum_list (List.map f kg.2)) gs) + f r.
Proof.
  induction gs as [|[k' g] gs IH]; simpl; [lia|].
  destruct (decide (k = k')); simpl.
  - rewrite List.map_app, sum_list_app. simpl. lia.
  - rewrite IH. lia.
Qed.

Lemma collect_groups_sum (f : R -> Z) rs :
  sum_list (List.map (fun kg => sum_list (List.map f kg.2)) (collect_groups key rs))
  = sum_list (List.map f (List.filter (has_key key) rs)).
Proof.
  induction rs as [|r rs IH] using rev_ind; [done|].
  rewrite collect_groups_snoc, List.filter_app, List.map_app, sum_list_app.
  unfold collect_step. cbn [List.filter]. unfold has_key at 2.
  destruct (key r) eqn:Hk.
  - rewrite add_to_group_sum, IH. simpl. lia.
  - rewrite IH. simpl. lia.
Qed.

Lemma groupby_sum (f : R -> Z) rs :
  sum_list (List.map (fun kg => sum_list (List.map f kg.2)) (groupby le key rs))
  = sum_list (List.map f (List.filter (has_key key) rs)).
Proof.
  rewrite <- collect_groups_sum. apply sum_list_Permutation.
  apply Permutation_map. apply groupby_Permutation.
Qed.
End GroupByFacts.

(** ** Static prefix table (C8) *)

Lemma times_defined_pos {V} k (items : list (string * V)) :
  (0 < times_defined k items)%nat -> k ∈ items.*1.
Proof.
  unfold times_defined. induction items as [|[k' v] items IH]; simpl; [lia|].
  destruct (String.eqb_spec k' k) as [->|Hne]; simpl.
  - intros _. left.
  - intros H. right. auto.
Qed.

Lemma redefined_differently_inv (items : list (string * string)) k :
  forallb (redefined_differently String.eqb items) items.*1 = true ->
  (2 <= times_defined k items)%nat ->
  exists a b, first_defined k items = Some a /\ last_defined k items = Some b /\ a <> b.
Proof.
  intros Hall Htwice.
  assert (Hin : k ∈ items.*1) by (apply times_defined_pos; lia).
  rewrite forallb_forall in Hall.
  apply list_elem_of_In, Hall in Hin. revert Hin.
  unfold redefined_differently.
  destruct (Nat.leb_spec 2 (times_defined k items)) as [_|?]; [|lia].
  generalize (first_defined k items) (last_defined k items).
  intros [a|] [b|] Hne; try discriminate Hne.
  exists a, b. split; [reflexivity|]. split; [reflexivity|].
  intros ->. rewrite String.eqb_refl in Hne. discriminate Hne.
Qed.

Lemma redefined_differently_all :
  forallb (redefined_differently String.eqb PARENT_ORG_MAPPING_items)
    PARENT_ORG_MAPPING_items.*1 = true.
Proof. vm_compute. reflexivity. Qed.

Lemma truthy_str s : s <> "" -> truthy (PyStr s) = true.
Proof. intros H. simpl. by destruct (String.eqb_spec s ""). Qed.

Lemma get_parent_org_static cid org org_name :
  cid <> "" -> PARENT_ORG_MAPPING !! contract_base cid = Some org ->
  get_parent_org (PyStr cid) org_name = Some org.
Proof.
  intros Hne Hk. unfold get_parent_org. rewrite truthy_str by done.
  cbn [negb as_str mbind option_bind]. by rewrite Hk.
Qed.

Lemma PARENT_ORG_MAPPING_lookup k :
  PARENT_ORG_MAPPING !! k = last_defined k PARENT_ORG_MAPPING_items.
Proof. exact (dict_display_lookup PARENT_ORG_MAPPING_items k). Qed.

Lemma empty_prefix_undefined : times_defined "" PARENT_ORG_MAPPING_items = 0%nat.
Proof. vm_compute. reflexivity. Qed.

Lemma contract_base_empty : contract_base "" = "".
Proof. reflexivity. Qed.

(** C8. For every contract prefix that the static table defines more than
    once, the table holds the organization of the last definition, which
    differs from the first one, and [get_parent_org] returns it for every
    contract number with that prefix. *)
Theorem static_map_last_write_wins (k : string) :
  (2 <= times_defined k PARENT_ORG_MAPPING_items)%nat ->
  exists first_org last_org,
    first_defined k PARENT_ORG_MAPPING_items = Some first_org /\
    last_defined k PARENT_ORG_MAPPING_items = Some last_org /\
    first_org <> last_org /\
    PARENT_ORG_MAPPING !! k = Some last_org /\
    forall cid org_name,
      contract_base cid = k -> get_parent_org (PyStr cid) org_name = Some last_org.
Proof.
  intros Htwice.
  destruct (redefined_differently_inv _ k redefined_differently_all Htwice)
    as (a & b & Hfirst & Hlast & Hne).
  exists a, b. split; [exact Hfirst|]. split; [exact Hlast|]. split; [exact Hne|].
  assert (Hk : PARENT_ORG_MAPPING !! k = Some b).
  { rewrite PARENT_ORG_MAPPING_lookup. exact Hlast. }
  split; [exact Hk|].
  intros cid org_name Hbase. apply get_parent_org_static.
  - intros ->. apply (f_equal (fun x => times_defined x PARENT_ORG_MAPPING_items)) in Hbase.
    rewrite contract_base_empty, empty_prefix_undefined in Hbase. lia.
  - rewrite Hbase. exact Hk.
Qed.

Lemma static_map_last_write_wins_witness :
  exists first_org last_org,
    first_defined "H0028" PARENT_ORG_MAPPING_items = Some first_org /\
    last_defined "H0028" PARENT_ORG_MAPPING_items = Some last_org /\
    first_org <> last_org /\
    PARENT_ORG_MAPPING !! "H0028" = Some last_org /\
    forall cid org_name,
      contract_base cid = "H0028" -> get_parent_org (PyStr cid) org_name = Some last_org.
Proof. apply (static_map_last_write_wins "H0028"). vm_compute. lia. Defined.

Example static_map_redefined_prefixes :
  List.map (fun k => (k, first_defined k PARENT_ORG_MAPPING_items, PARENT_ORG_MAPPING !! k))
    ["H0028"; "R5826"; "H0169"; "H0354"; "H5521"]
  = [ ("H0028", Some "UnitedHealth Group", Some "Humana");
      ("R5826", Some "UnitedHealth Group", Some "Humana");
      ("H0169", Some "Centene", Some "Molina Healthcare");
      ("H0354", Some "Elevance Health (Anthem)", Some "Cigna");
      ("H5521", Some "UnitedHealth Group", Some "CVS Health (Aetna)") ].
Proof. vm_compute. reflexivity. Qed.

(** ** Plan-type classifier (C2) *)

Lemma or_empty_text v : v <> PyNaN -> as_str (or_empty v) = Some (text v).
Proof.
  destruct v as [| |s]; [reflexivity|congruence|]. intros _.
  unfold or_empty, truthy. destruct (String.eqb_spec s "") as [->|_]; reflexivity.
Qed.





(** ** Parent-organization resolution (C3) *)

Lemma substring_all s n : (String.length s <= n)%nat -> String.substring 0 n s = s.
Proof.
  revert n. induction s as [|c s IH]; intros [|n] Hn; simpl in *; try reflexivity; try lia.
  f_equal. apply IH. lia.
Qed.

(** slicing [cid[:5]] already returns a short string whole *)
Lemma contract_base_take cid : contract_base cid = PyStr.take 5 cid.
Proof.
  unfold contract_base, PyStr.take.
  destruct (Nat.leb_spec 5 (String.length cid)) as [_|Hshort]; [reflexivity|].
  symmetry. apply substring_all. lia.
Qed.

Lemma first_keyword_match_find name items :
  first_keyword_match name items
  = fst <$> List.find (fun entry => existsb (fun kw => PyStr.contains kw name) entry.2) items.
Proof.
  induction items as [|[parent keywords] items IH]; [reflexivity|].
  cbn [first_keyword_match List.find snd]. unfold PyStr.any.
  destruct (existsb _ keywords); [reflexivity|exact IH].
Qed.

Lemma get_parent_org_chain cid org_name :
  org_name <> PyNaN ->
  get_parent_org (PyStr cid) org_name
  = Some (resolve_parent_org_spec ∅ cid (text org_name)).
Proof.
  intros Hname. unfold get_parent_org, resolve_parent_org_spec.
  cbn [truthy]. destruct (String.eqb cid ""); [reflexivity|].
  cbn [negb as_str mbind option_bind]. rewrite lookup_empty, contract_base_take.
  destruct (PARENT_ORG_MAPPING !! PyStr.take 5 cid); [reflexivity|].
  rewrite (or_empty_text _ Hname).
  cbn [fmap option_fmap option_map mbind option_bind].
  rewrite first_keyword_match_find.
  destruct (List.find _ org_keywords) as [[parent kws]|]; reflexivity.
Qed.

Lemma resolve_parent_org_spec_miss lookup cid org_name :
  lookup !! cid = None ->
  resolve_parent_org_spec lookup cid org_name = resolve_parent_org_spec ∅ cid org_name.
Proof.
  intros Hmiss. unfold resolve_parent_org_spec. by rewrite Hmiss, lookup_empty.
Qed.

(** C3. Without an organization column, the organization of a record is
    resolved in this order: "Other" for a missing or empty contract
    number; the entry of the contract-info table for the whole contract
    number; the entry of the static table for its first five characters;
    the first organization one of whose keywords occurs in the organization
    name; "Other".  [get_org] passes the empty organization name, and
    [get_parent_org] follows the last three steps for any name. *)
Theorem organization_resolution_order
    (contract_to_org : gmap string string) (columns : list string) (r : list pyval) :
  str_in "organization" columns = false ->
  (cell_of columns "contract_number" r = PyStr "" -> contract_to_org !! "" = None) ->
  organization_of contract_to_org columns r
  = Some (PyStr (resolve_parent_org_spec contract_to_org
                   (text (cell_of columns "contract_number" r)) ""))
  /\ (forall cid org,
        contract_to_org !! cid = Some org ->
        get_org contract_to_org (PyStr cid) = Some org)
  /\ (forall cid org_name,
        org_name <> PyNaN ->
        get_parent_org (PyStr cid) org_name
        = Some (resolve_parent_org_spec ∅ cid (text org_name))).
Proof.
  intros Hcol Hempty. split; [|split].
  - unfold organization_of. rewrite Hcol.
    destruct (cell_of columns "contract_number" r) as [| |cid] eqn:Hcell;
      [reflexivity|reflexivity|].
    unfold get_org. cbn [isna as_str mbind option_bind text fmap option_fmap option_map].
    destruct (contract_to_org !! cid) as [org|] eqn:Hlook.
    + unfold resolve_parent_org_spec.
      destruct (String.eqb_spec cid "") as [->|_].
      * rewrite Hempty in Hlook by reflexivity. discriminate Hlook.
      * by rewrite Hlook.
    + rewrite get_parent_org_chain by discriminate.
      cbn [text option_map].
      rewrite (resolve_parent_org_spec_miss contract_to_org) by exact Hlook.
      reflexivity.
  - intros cid org Hlook. unfold get_org.
    cbn [isna as_str mbind option_bind]. by rewrite Hlook.
  - intros cid org_name. apply get_parent_org_chain.
Qed.

Lemma organization_resolution_order_witness :
  organization_of {["H0028" := "Acme Health"]}
    ["contract_number"; "state"; "enrollment"] [PyStr "H0028"; PyStr "CA"; PyStr "10"]
  = Some (PyStr "Acme Health").
Proof.
  refine (proj1 (organization_resolution_order {["H0028" := "Acme Health"]}
                   ["contract_number"; "state"; "enrollment"]
                   [PyStr "H0028"; PyStr "CA"; PyStr "10"] _ _)).
  - reflexivity.
  - intros H. discriminate H.
Defined.

Example organization_resolution_examples :
  List.map (get_org {["H0028" := "Acme Health"]})
    [PyNaN; PyStr "H0028"; PyStr "H0028X"; PyStr "H5521"; PyStr "H55"; PyStr "Z0000"]
  = [Some "Other"; Some "Acme Health"; Some "Humana"; Some "CVS Health (Aetna)";
     Some "Other"; Some "Other"]
  /\ get_parent_org (PyStr "Z0000") (PyStr "Anthem Blue Cross") = Some "Elevance Health (Anthem)".
Proof. split; vm_compute; reflexivity. Qed.

(** ** Enrollment coercion (C4) *)




Lemma append_cons c (a b : string) : String c a ++ b = String c (a ++ b).
Proof. reflexivity. Qed.

Lemma append_nil_r (a : string) : a ++ "" = a.
Proof. induction a as [|c a IH]; [reflexivity|]. by rewrite append_cons, IH. Qed.















(** ** Schema check (C7) *)

Lemma str_in_elem x l : str_in x l = true <-> x ∈ l.
Proof.
  unfold str_in. rewrite existsb_exists, list_elem_of_In. split.
  - intros (y & Hy & Heq). apply String.eqb_eq in Heq. by subst.
  - intros Hin. exists x. split; [exact Hin|apply String.eqb_refl].
Qed.

Lemma str_in_not_elem x l : str_in x l = false <-> x ∉ l.
Proof. rewrite <- str_in_elem. by destruct (str_in x l). Qed.

Lemma distinct_NoDup l : distinct l = true -> NoDup l.
Proof.
  induction l as [|x l IH]; simpl; [constructor|].
  intros [Hx Hl]%andb_true_iff. constructor; [|auto].
  apply str_in_not_elem. by destruct (str_in x l).
Qed.

Section Renaming.

Variable columns : list string.

Lemma build_renamed_fold :
  build_renamed columns = fold_left (rename_step columns) column_mappings ∅.
Proof. reflexivity. Qed.

Lemma first_present_Some vars c :
  first_present columns vars = Some c -> c ∈ vars /\ c ∈ columns.
Proof.
  intros H. apply find_some in H as [Hin Hc].
  split; [by apply list_elem_of_In|by apply str_in_elem].
Qed.

Lemma first_present_exists vars :
  existsb (fun var => str_in var columns) vars = true ->
  exists c, first_present columns vars = Some c.
Proof.
  intros (v & Hv & Hc)%existsb_exists. unfold first_present.
  destruct (List.find _ vars) as [c|] eqn:Hfind; [eauto|].
  eapply find_none in Hfind; [|exact Hv]. simpl in Hfind. congruence.
Qed.

(** every entry of the renaming comes from a mapping whose first present
    variation is the renamed column *)
Lemma renamed_sound ms : forall acc c std,
  fold_left (rename_step columns) ms acc !! c = Some std ->
  acc !! c = Some std
  \/ exists vars, (std, vars) ∈ ms /\ first_present columns vars = Some c.
Proof.
  induction ms as [|[s v] ms IH]; intros acc c std; simpl; [auto|].
  intros [Hacc|(vars & Hin & Hfp)]%IH.
  - unfold rename_step in Hacc. cbn [fst snd] in Hacc.
    destruct (first_present columns v) as [var|] eqn:Hfp; [|auto].
    destruct (decide (var = c)) as [->|Hne].
    + rewrite lookup_insert_eq in Hacc. injection Hacc as <-.
      right. exists v. split; [left|exact Hfp].
    + rewrite lookup_insert_ne in Hacc by done. auto.
  - right. exists vars. split; [by right|exact Hfp].
Qed.

(** a mapping none of whose variations is [c] leaves [c] alone *)
Lemma renamed_untouched ms : forall acc c,
  c ∉ concat ms.*2 -> fold_left (rename_step columns) ms acc !! c = acc !! c.
Proof.
  induction ms as [|[s v] ms IH]; intros acc c Hc; simpl; [reflexivity|].
  cbn [fmap list_fmap snd concat] in Hc.
  rewrite elem_of_app in Hc.
  rewrite IH by tauto. unfold rename_step. cbn [fst snd].
  destruct (first_present columns v) as [var|] eqn:Hfp; [|reflexivity].
  apply first_present_Some in Hfp as [Hvar _].
  apply lookup_insert_ne. intros ->. tauto.
Qed.

Lemma renamed_complete ms : forall acc c std vars,
  NoDup (concat ms.*2) ->
  (std, vars) ∈ ms -> first_present columns vars = Some c ->
  fold_left (rename_step columns) ms acc !! c = Some std.
Proof.
  induction ms as [|[s v] ms IH]; intros acc c std vars Hnd Hin Hfp.
  - by apply elem_of_nil in Hin.
  - cbn [fmap list_fmap snd concat] in Hnd.
    apply NoDup_app in Hnd as (_ & Hdisj & Hnd).
    simpl. apply elem_of_cons in Hin as [[= -> ->]|Hin].
    + rewrite renamed_untouched.
      * unfold rename_step. cbn [fst snd]. rewrite Hfp. apply lookup_insert_eq.
      * apply Hdisj. by apply first_present_Some in Hfp as [? _].
    + by eapply IH.
Qed.

End Renaming.

Lemma find_key_NoDup {V} (ms : list (string * V)) std vars :
  NoDup ms.*1 -> (std, vars) ∈ ms ->
  List.find (fun m => String.eqb m.1 std) ms = Some (std, vars).
Proof.
  induction ms as [|[s v] ms IH]; intros Hnd Hin.
  - by apply elem_of_nil in Hin.
  - cbn [fmap list_fmap fst] in Hnd. apply NoDup_cons in Hnd as [Hs Hnd].
    cbn [List.find fst]. apply elem_of_cons in Hin as [[= -> ->]|Hin].
    + by rewrite String.eqb_refl.
    + destruct (String.eqb_spec s std) as [->|_]; [|auto].
      exfalso. apply Hs. apply list_elem_of_fmap. by exists (std, vars).
Qed.

Lemma find_key_elem {V} (ms : list (string * V)) std m :
  List.find (fun m => String.eqb m.1 std) ms = Some m -> m.1 = std /\ m ∈ ms.
Proof.
  intros [Hin Heq]%find_some. apply String.eqb_eq in Heq.
  split; [exact Heq|by apply list_elem_of_In].
Qed.

Lemma column_mappings_keys : NoDup column_mappings.*1.
Proof. apply distinct_NoDup. vm_compute. reflexivity. Qed.

Lemma column_mappings_variations : NoDup (concat column_mappings.*2).
Proof. apply distinct_NoDup. vm_compute. reflexivity. Qed.

Lemma column_mappings_own_name std vars :
  (std, vars) ∈ column_mappings -> std ∈ vars.
Proof.
  intros Hin.
  assert (Hall : forallb (fun m => str_in m.1 m.2) column_mappings = true)
    by (vm_compute; reflexivity).
  rewrite forallb_forall in Hall. apply list_elem_of_In, Hall in Hin.
  by apply str_in_elem.
Qed.

(** A standard name is a column of the normalized header exactly when one
    of its variations is a column of the standardized header. *)
Lemma normalized_has_column raw field :
  field ∈ column_mappings.*1 ->
  str_in field (normalized_columns raw)
  = has_match (List.map standardize_column raw) field.
Proof.
  intros Hfield. unfold normalized_columns.
  set (columns := List.map standardize_column raw).
  apply list_elem_of_fmap in Hfield as ([std vars] & -> & Hin). cbn [fst].
  unfold has_match.
  rewrite (find_key_NoDup _ _ _ column_mappings_keys Hin).
  apply eq_true_iff_eq. rewrite str_in_elem. unfold rename_columns.
  rewrite list_elem_of_In, in_map_iff. split.
  - intros (c & Hc & Hcol%list_elem_of_In).
    apply existsb_exists.
    destruct (build_renamed columns !! c) as [std'|] eqn:Hren; simpl in Hc; subst.
    + rewrite build_renamed_fold in Hren.
      apply renamed_sound in Hren as [Hren|(vars' & Hin' & Hfp)];
        [by rewrite lookup_empty in Hren|].
      pose proof (find_key_NoDup _ _ _ column_mappings_keys Hin) as H1.
      pose proof (find_key_NoDup _ _ _ column_mappings_keys Hin') as H2.
      rewrite H1 in H2. injection H2 as <-.
      apply first_present_Some in Hfp as [Hv _].
      exists c. split; [by apply list_elem_of_In|by apply str_in_elem].
    + exists std. split; [|by apply str_in_elem].
      apply list_elem_of_In. by eapply column_mappings_own_name.
  - intros [c Hfp]%first_present_exists.
    exists c. split.
    + rewrite build_renamed_fold.
      by rewrite (renamed_complete _ _ _ _ _ _ column_mappings_variations Hin Hfp).
    + apply list_elem_of_In. by apply first_present_Some in Hfp as [_ ?].
Qed.

Lemma missing_columns_spec raw :
  missing_columns (normalized_columns raw) = missing_fields_spec raw.
Proof.
  unfold missing_columns, missing_fields_spec.
  apply filter_ext_in. intros field Hfield. f_equal.
  apply normalized_has_column.
  apply list_elem_of_In in Hfield. revert Hfield.
  apply (Forall_forall (fun f => f ∈ column_mappings.*1) required).
  repeat constructor; apply list_elem_of_In; vm_compute; tauto.
Qed.

(** C7, counterexample. Two tables with different columns, none of them
    required, raise the same error: the columns that were available are
    printed, and the error does not carry them, so no reading of the error
    recovers them. *)
Lemma schema_error_lacks_available_columns :
  (exists e,
     (forall pd,
        process_csv pd (fun _ _ => None) ∅ headers_a = ([Print_available ["plan"]], Raises e)
        /\ process_csv pd (fun _ _ => None) ∅ headers_b
           = ([Print_available ["region"]], Raises e)))
  /\ ~ (exists (pd : Pandas) (available_of : exn -> list string),
          forall raw out e,
            process_csv pd (fun _ _ => None) ∅ raw = (out, Raises e) ->
            available_of e = normalized_columns (raw_columns raw)).
Proof.
  assert (Ha : forall pd, process_csv pd (fun _ _ => None) ∅ headers_a
               = ([Print_available ["plan"]],
                  Raises (ValueError_missing ["contract_number"; "state"; "enrollment"])))
    by (intros [[] [] []]; vm_compute; reflexivity).
  assert (Hb : forall pd, process_csv pd (fun _ _ => None) ∅ headers_b
               = ([Print_available ["region"]],
                  Raises (ValueError_missing ["contract_number"; "state"; "enrollment"])))
    by (intros [[] [] []]; vm_compute; reflexivity).
  split; [eauto|].
  intros (pd & available_of & Hall).
  pose proof (Hall _ _ _ (Ha pd)) as Hpa. pose proof (Hall _ _ _ (Hb pd)) as Hpb.
  rewrite Hpa in Hpb. vm_compute in Hpb. discriminate Hpb.
Qed.

(** C7. [process_csv] raises the error for missing columns exactly when
    some required field has no matching column after synonym mapping.  The
    error carries the list of those fields, in the order contract_number,
    state, enrollment, and nothing else; the columns of the normalized
    header are printed just before the error is raised. *)
Theorem schema_error_iff (pd : Pandas) (float_to_int : list pyval -> string -> option Z)
    (contract_to_org : gmap string string) (raw : RawTable)
    (out : list output) (missing : list string) :
  process_csv pd float_to_int contract_to_org raw
  = (out, Raises (ValueError_missing missing))
  <-> missing = missing_fields_spec (raw_columns raw)
      /\ missing <> []
      /\ out = [Print_available (normalized_columns (raw_columns raw))].
Proof.
  unfold process_csv, check_required.
  rewrite missing_columns_spec.
  destruct (missing_fields_spec (raw_columns raw)) as [|field fields].
  - split.
    + destruct (coerce_column _ _ _) as [ints|e] eqn:Hints.
      * destruct (make_rows _ _ _ _); discriminate.
      * unfold coerce_column in Hints. destruct (mapM _ _); [discriminate|].
        injection Hints as <-. discriminate.
    + intros (-> & Hne & _). congruence.
  - split.
    + intros [= <- <-]. done.
    + intros (-> & _ & ->). reflexivity.
Qed.

(** ** Delta engine (C5) *)

Section DeltaFacts.

Context {float : Type}.
Variable fdiv : Z -> Z -> float.
Variable times100 : float -> float.
Variable round2 : float -> float.

(** the division is reached only behind the guard, with a positive divisor *)
Lemma change_pct_of_guarded change dec_total :
  change_pct_of fdiv times100 round2 change dec_total
  = Some (if 0 <? dec_total
          then PctFloat (round2 (times100 (fdiv change dec_total)))
          else PctInt 0).
Proof.
  unfold change_pct_of, truediv.
  destruct (Z.ltb_spec 0 dec_total) as [Hpos|_]; [|reflexivity].
  destruct (Z.eqb_spec dec_total 0) as [->|_]; [lia|reflexivity].
Qed.

Lemma change_entry_spec curr_total dec_total :
  change_entry fdiv times100 round2 curr_total dec_total
  = Some (change_spec fdiv times100 round2 curr_total dec_total).
Proof. unfold change_entry. rewrite change_pct_of_guarded. reflexivity. Qed.

Lemma change_loop_spec {A B} (total_a : A -> Z) (total_b : B -> Z)
    (current : gmap string A) (december : gmap string B) :
  exists changes,
    change_loop fdiv times100 round2 total_a total_b current december = Some changes
    /\ forall k,
         changes !! k
         = (fun a => change_spec fdiv times100 round2 (total_a a)
                       (from_option total_b 0 (december !! k)))
           <$> current !! k.
Proof.
  unfold change_loop.
  apply (map_fold_weak_ind
           (fun (r : option (gmap string (Change float))) (m : gmap string A) =>
              exists changes, r = Some changes /\
                forall k, changes !! k
                          = (fun a => change_spec fdiv times100 round2 (total_a a)
                                        (from_option total_b 0 (december !! k)))
                            <$> m !! k)).
  - exists ∅. split; [reflexivity|]. intros k. by rewrite !lookup_empty.
  - intros i a m r Hfresh (changes & -> & Hlook).
    rewrite change_entry_spec. eexists. split; [reflexivity|].
    intros k. destruct (decide (i = k)) as [->|Hne].
    + by rewrite !lookup_insert_eq.
    + rewrite !lookup_insert_ne by done. apply Hlook.
Qed.

End DeltaFacts.

(** C5. [calculate_changes] always returns, with no division error: each
    key of the current counties, organizations and states gets the
    baseline of that key, 0 when the baseline snapshot lacks it, the
    change current minus baseline, and the percentage
    round(change / baseline * 100, 2) when the baseline is strictly
    positive and the integer 0 otherwise; so does the summary.  A current
    value of 100 against a baseline of 0 gives the change 100 and the
    percentage 0. *)
Theorem calculate_changes_zero_baseline_guard (float : Type)
    (fdiv : Z -> Z -> float) (times100 round2 : float -> float)
    (current december : Snapshot) :
  (exists changes,
     calculate_changes fdiv times100 round2 current december = Some changes
     /\ (forall k,
           chg_counties changes !! k
           = (fun c => change_spec fdiv times100 round2 (cd_total c)
                         (from_option cd_total 0 (counties december !! k)))
             <$> counties current !! k)
     /\ (forall k,
           chg_by_org changes !! k
           = (fun n => change_spec fdiv times100 round2 n
                         (default 0 (by_org december !! k)))
             <$> by_org current !! k)
     /\ (forall k,
           chg_by_state changes !! k
           = (fun n => change_spec fdiv times100 round2 n
                         (default 0 (by_state december !! k)))
             <$> by_state current !! k)
     /\ chg_summary changes
        = summary_spec fdiv times100 round2
            (total_enrollment (metadata current))
            (total_enrollment (metadata december)))
  /\ change_entry fdiv times100 round2 100 0
     = Some {| ch_current := 100; ch_december := 0; ch_change := 100;
               ch_change_pct := PctInt 0 |}.
Proof.
  split; [|reflexivity].
  unfold calculate_changes.
  destruct (change_loop_spec fdiv times100 round2 cd_total cd_total
              (counties current) (counties december)) as (cs & -> & Hcs).
  destruct (change_loop_spec fdiv times100 round2 id id
              (by_org current) (by_org december)) as (os & -> & Hos).
  destruct (change_loop_spec fdiv times100 round2 id id
              (by_state current) (by_state december)) as (ss & -> & Hss).
  unfold truediv.
  destruct (Z.ltb_spec 0 (total_enrollment (metadata december))) as [Hpos|Hle].
  - destruct (Z.eqb_spec (total_enrollment (metadata december)) 0) as [Hz|_]; [lia|].
    eexists. split; [reflexivity|]. cbn [chg_counties chg_by_org chg_by_state chg_summary].
    repeat split; try assumption.
    unfold summary_spec. apply Z.ltb_lt in Hpos. by rewrite Hpos.
  - eexists. split; [reflexivity|]. cbn [chg_counties chg_by_org chg_by_state chg_summary].
    repeat split; try assumption.
    unfold summary_spec. apply Z.ltb_ge in Hle. by rewrite Hle.
Qed.

(** ** Sums of an int64 column *)

Lemma wrap64_small z : - 2 ^ 63 <= z < 2 ^ 63 -> wrap64 z = z.
Proof. intros Hz. unfold wrap64. rewrite Z.mod_small; lia. Qed.

Lemma wrap64_range z : - 2 ^ 63 <= wrap64 z < 2 ^ 63.
Proof.
  unfold wrap64. pose proof (Z.mod_pos_bound (z + 2 ^ 63) (2 ^ 64)). lia.
Qed.

Lemma wrap64_add_r a b : wrap64 (a + wrap64 b) = wrap64 (a + b).
Proof.
  unfold wrap64. f_equal.
  replace (a + ((b + 2 ^ 63) mod 2 ^ 64 - 2 ^ 63) + 2 ^ 63)
    with (a + (b + 2 ^ 63) mod 2 ^ 64) by lia.
  rewrite Z.add_mod_idemp_r by lia. f_equal. lia.
Qed.

(** adding up sums that wrapped around and wrapping the result gives the
    wrapped sum of the whole *)
Lemma wrap64_sum {A} (h : A -> Z) l :
  wrap64 (sum_list (List.map (fun x => wrap64 (h x)) l))
  = wrap64 (sum_list (List.map h l)).
Proof.
  induction l as [|x l IH]; [reflexivity|]. cbn [List.map sum_list fold_right].
  fold (sum_list (List.map (fun x => wrap64 (h x)) l)). fold (sum_list (List.map h l)).
  rewrite (Z.add_comm (wrap64 (h x))), wrap64_add_r, Z.add_comm.
  rewrite <- wrap64_add_r, IH, wrap64_add_r. reflexivity.
Qed.

Lemma sum_abs_nonneg l : 0 <= sum_list (List.map Z.abs l).
Proof. induction l as [|x l IH]; simpl; lia. Qed.

Lemma sum_abs_bound l : Z.abs (sum_list l) <= sum_list (List.map Z.abs l).
Proof. induction l as [|x l IH]; simpl; lia. Qed.

Lemma sum_abs_sublist l1 l2 :
  l1 `sublist_of` l2 -> sum_list (List.map Z.abs l1) <= sum_list (List.map Z.abs l2).
Proof. induction 1 as [|x l1 l2 _ IH|x l1 l2 _ IH]; simpl; lia. Qed.

Lemma no_overflow_sublist l1 l2 : l1 `sublist_of` l2 -> no_overflow l2 -> no_overflow l1.
Proof. unfold no_overflow. intros H%sum_abs_sublist. lia. Qed.

Lemma series_sum_exact l : no_overflow l -> series_sum l = sum_list l.
Proof.
  unfold no_overflow, series_sum. intros H. apply wrap64_small.
  pose proof (sum_abs_bound l). lia.
Qed.

Lemma List_filter_sublist {A} (p : A -> bool) l : List.filter p l `sublist_of` l.
Proof.
  induction l as [|x l IH]; [constructor|]. cbn [List.filter].
  destruct (p x); by constructor.
Qed.

Section GroupSums.
Context {K R : Type} `{EqDecision K}.
Variable le : K -> K -> Prop.
Context `{!RelDecision le}.
Variable key : R -> option K.
Variable f : R -> Z.

Lemma group_sublist rs k g : (k, g) ∈ groupby le key rs -> g `sublist_of` rs.
Proof. intros [-> _]%groupby_elem. apply sublist_filter. Qed.

(** the int64 sums of the groups add up, modulo 2^64, to the int64 sum
    of the records that have a key *)
Lemma groupby_series_sum rs :
  wrap64 (sum_list (List.map (fun kg => series_sum (List.map f kg.2)) (groupby le key rs)))
  = series_sum (List.map f (List.filter (has_key key) rs)).
Proof.
  unfold series_sum.
  rewrite (wrap64_sum (fun kg : K * list R => sum_list (List.map f kg.2))).
  by rewrite groupby_sum.
Qed.

(** and exactly when no sum of the table leaves the range of int64 *)
Lemma groupby_series_sum_exact rs :
  no_overflow (List.map f rs) ->
  sum_list (List.map (fun kg => series_sum (List.map f kg.2)) (groupby le key rs))
  = sum_list (List.map f (List.filter (has_key key) rs)).
Proof.
  intros Hno. rewrite <- (groupby_sum le key f rs). f_equal.
  apply map_ext_in. intros [k g] Hin%list_elem_of_In. cbn [snd].
  apply series_sum_exact. apply no_overflow_sublist with (List.map f rs); [|exact Hno].
  apply (fmap_sublist f). by eapply group_sublist.
Qed.

Lemma groupby_nil rs : groupby le key rs = [] <-> Forall (fun r => key r = None) rs.
Proof.
  split.
  - intros Hnil. apply Forall_forall. intros r Hr.
    destruct (key r) as [k|] eqn:Hk; [|reflexivity]. exfalso.
    assert (Hin : (k, records_with key k rs) ∈ groupby le key rs).
    { apply groupby_elem. split; [reflexivity|]. intros Hempty.
      assert (Hr' : r ∈ records_with key k rs) by (by apply list_elem_of_filter).
      rewrite Hempty in Hr'. by apply elem_of_nil in Hr'. }
    rewrite Hnil in Hin. by apply elem_of_nil in Hin.
  - intros Hall. destruct (groupby le key rs) as [|[k g] gs] eqn:Hg; [reflexivity|].
    exfalso.
    assert (Hin : (k, g) ∈ groupby le key rs) by (rewrite Hg; left).
    apply groupby_elem in Hin as [-> Hne]. apply Hne.
    destruct (records_with key k rs) as [|r g] eqn:Hrec; [reflexivity|]. exfalso.
    assert (Hr : r ∈ records_with key k rs) by (rewrite Hrec; left).
    apply list_elem_of_filter in Hr as [Hk Hr].
    rewrite Forall_forall in Hall. rewrite (Hall r Hr) in Hk. discriminate Hk.
Qed.
End GroupSums.

(** ** The aggregator *)

Lemma aggregate_enrollment_inv pd now df snap :
  aggregate_enrollment pd now df = Some snap ->
  exists rs,
    mapM (classify_row df) (rows df) = Some rs
    /\ total_enrollment (metadata snap) = series_sum (List.map enrollment (rows df))
    /\ counties snap = county_loop (county_group (has_county df) rs)
    /\ by_org snap = sum_by parent_org rs
    /\ by_plan_type snap = sum_by (fun c => PyStr (plan_type c)) rs
    /\ by_state snap = sum_by (fun c => state (base c)) rs
    /\ contracts snap = contract_details (has_organization df) rs.
Proof.
  unfold aggregate_enrollment.
  destruct (empty_apply_raises pd && _); [discriminate|].
  destruct (mapM (classify_row df) (rows df)) as [rs|]; [|discriminate].
  cbn [mbind option_bind].
  destruct (negb (has_county df) && _ && _); [discriminate|].
  intros [= <-]. exists rs. repeat split.
Qed.


Lemma first_defined_app {V} k (l1 l2 : list (string * V)) :
  first_defined k (l1 ++ l2)
  = match first_defined k l1 with Some v => Some v | None => first_defined k l2 end.
Proof.
  unfold first_defined. induction l1 as [|[k' v] l1 IH]; [reflexivity|].
  simpl. destruct (String.eqb k' k); [reflexivity|exact IH].
Qed.

Lemma first_defined_fresh {V} k (l : list (string * V)) :
  Forall (fun kv => kv.1 <> k) l -> first_defined k l = None.
Proof.
  unfold first_defined. induction 1 as [|[k' v] l Hk _ IH]; [reflexivity|].
  simpl in *. by destruct (String.eqb_spec k' k).
Qed.

(** the item written last under a key is the one none follows *)
Lemma last_defined_split {V} k v (l1 l2 : list (string * V)) :
  Forall (fun kv => kv.1 <> k) l2 ->
  last_defined k (l1 ++ (k, v) :: l2) = Some v.
Proof.
  intros Hl2. unfold last_defined.
  rewrite rev_app_distr. simpl. rewrite <- app_assoc, first_defined_app.
  rewrite first_defined_fresh.
  - unfold first_defined. simpl. by rewrite String.eqb_refl.
  - apply Forall_forall. intros kv Hin. apply list_elem_of_In, in_rev in Hin.
    rewrite Forall_forall in Hl2. apply Hl2. by apply list_elem_of_In.
Qed.

Lemma last_defined_elem {V} k v (l : list (string * V)) :
  last_defined k l = Some v -> (k, v) ∈ l.
Proof.
  unfold last_defined, first_defined.
  destruct (List.find _ (rev l)) as [[k' v']|] eqn:Hfind; [|discriminate].
  intros [= <-]. apply find_some in Hfind as [Hin Hk].
  apply String.eqb_eq in Hk. simpl in Hk. subst k'.
  apply list_elem_of_In, in_rev. exact Hin.
Qed.





(** ** County keys *)

Lemma classify_row_base df r c :
  classify_row df r = Some c ->
  base c = r /\ fips_value c = (if has_fips df then fips r else PyStr "").
Proof.
  unfold classify_row.
  destruct (identify_plan_type _ _ _) as [pt|]; [|discriminate].
  cbn [mbind option_bind].
  destruct (if has_organization df then _ else _) as [po|]; [|discriminate].
  intros [= <-]. split; reflexivity.
Qed.

Lemma classified_rows df rs :
  mapM (classify_row df) (rows df) = Some rs ->
  List.map base rs = rows df
  /\ Forall (fun c => fips_value c = (if has_fips df then fips (base c) else PyStr "")) rs.
Proof.
  rewrite mapM_Some. generalize (rows df). intros l H.
  induction H as [|r c l rs Hc _ [IH1 IH2]]; [split; [reflexivity|constructor]|].
  apply classify_row_base in Hc as [Hb Hf]. split.
  - simpl. by rewrite Hb, IH1.
  - constructor; [by rewrite Hb|exact IH2].
Qed.

















(** ** Dimension totals *)

Lemma as_str_key (col : Classified -> pyval) c s :
  as_str (col c) = Some s <-> col c = PyStr s.
Proof. destruct (col c); simpl; split; congruence. Qed.

Lemma has_key_notna (col : Classified -> pyval) c :
  has_key (fun c => as_str (col c)) c = notna (col c).
Proof. unfold has_key. by destruct (col c). Qed.

Lemma sum_by_lookup (col : Classified -> pyval) rs k v :
  sum_by col rs !! k = Some v
  <-> v = enrollment_sum (records_with (fun c => as_str (col c)) k rs)
      /\ records_with (fun c => as_str (col c)) k rs <> [].
Proof.
  unfold sum_by. rewrite to_dict_lookup_NoDup.
  - rewrite list_elem_of_In, in_map_iff. split.
    + intros ([k' g] & [= -> <-] & Hin%list_elem_of_In).
      apply groupby_elem in Hin as [-> Hne]. by split.
    + intros [-> Hne].
      exists (k, records_with (fun c => as_str (col c)) k rs).
      split; [reflexivity|]. apply list_elem_of_In, groupby_elem. by split.
  - rewrite <- list_fmap_compose.
    apply (groupby_NoDup str_le (fun c => as_str (col c)) rs).
Qed.

Lemma sum_values_groups (col : Classified -> pyval) rs :
  sum_values (sum_by col rs)
  = sum_list (List.map (fun kg => series_sum (List.map (fun c => enrollment (base c)) kg.2))
                (groupby str_le (fun c => as_str (col c)) rs)).
Proof.
  unfold sum_values, sum_by.
  rewrite (sum_to_dict (fun v : Z => v)).
  - by rewrite List.map_map.
  - rewrite <- list_fmap_compose.
    apply (groupby_NoDup str_le (fun c => as_str (col c)) rs).
Qed.

(** the entries of a breakdown add up, modulo 2^64, to the int64 sum of
    the records whose cell is not missing *)
Lemma sum_values_sum_by (col : Classified -> pyval) rs :
  wrap64 (sum_values (sum_by col rs))
  = series_sum (List.map (fun c => enrollment (base c))
                  (List.filter (fun c => notna (col c)) rs)).
Proof.
  rewrite sum_values_groups, groupby_series_sum.
  by rewrite (List.filter_ext _ _ (has_key_notna col)).
Qed.

Lemma sum_values_sum_by_exact (col : Classified -> pyval) rs :
  no_overflow (List.map (fun c => enrollment (base c)) rs) ->
  sum_values (sum_by col rs)
  = sum_list (List.map (fun c => enrollment (base c))
                (List.filter (fun c => notna (col c)) rs)).
Proof.
  intros Hno. rewrite sum_values_groups, groupby_series_sum_exact by exact Hno.
  by rewrite (List.filter_ext _ _ (has_key_notna col)).
Qed.

Lemma classify_row_parent df r c :
  classify_row df r = Some c ->
  has_organization df = true -> parent_org c = organization r.
Proof.
  unfold classify_row.
  destruct (identify_plan_type _ _ _) as [pt|]; [|discriminate].
  cbn [mbind option_bind]. intros Hc Horg. rewrite Horg in Hc.
  by injection Hc as <-.
Qed.

Lemma classified_parent df rs :
  mapM (classify_row df) (rows df) = Some rs ->
  has_organization df = true ->
  Forall (fun c => parent_org c = organization (base c)) rs.
Proof.
  rewrite mapM_Some. generalize (rows df). intros l H Horg.
  induction H as [|r c l rs Hc _ IH]; constructor; [|exact IH].
  rewrite (classify_row_parent _ _ _ Hc Horg).
  by apply classify_row_base in Hc as [-> _].
Qed.

Lemma records_with_rows (col : Classified -> pyval) (col' : Row -> pyval) rs s :
  Forall (fun c => col c = col' (base c)) rs ->
  List.map base (records_with (fun c => as_str (col c)) s rs)
  = rows_with col' s (List.map base rs).
Proof.
  unfold records_with, rows_with.
  induction 1 as [|c rs Hc _ IH]; [reflexivity|].
  rewrite filter_cons. cbn [List.map List.filter]. rewrite <- IH, <- Hc.
  destruct (decide (as_str (col c) = Some s)) as [Hk|Hk].
  - apply as_str_key in Hk. by rewrite bool_decide_eq_true_2.
  - rewrite bool_decide_eq_false_2; [reflexivity|]. by rewrite <- as_str_key.
Qed.

Lemma notna_rows (col : Classified -> pyval) (col' : Row -> pyval) rs :
  Forall (fun c => col c = col' (base c)) rs ->
  List.map base (List.filter (fun c => notna (col c)) rs)
  = List.filter (fun r => notna (col' r)) (List.map base rs).
Proof.
  induction 1 as [|c rs Hc _ IH]; [reflexivity|].
  cbn [List.map List.filter]. rewrite <- Hc.
  destruct (notna (col c)); cbn [List.map]; by rewrite IH.
Qed.

Lemma sum_by_entry (col : Classified -> pyval) (col' : Row -> pyval) rs s :
  Forall (fun c => col c = col' (base c)) rs ->
  sum_by col rs !! s = group_total series_sum (rows_with col' s (List.map base rs)).
Proof.
  intros Hcol. rewrite <- (records_with_rows col col' rs s Hcol).
  destruct (sum_by col rs !! s) as [v|] eqn:Hlook.
  - apply sum_by_lookup in Hlook as [-> Hne].
    destruct (records_with _ s rs) as [|c g]; [done|].
    unfold enrollment_sum. by rewrite <- List.map_map.
  - destruct (records_with (fun c => as_str (col c)) s rs) as [|c g] eqn:Hg;
      [reflexivity|].
    exfalso.
    assert (Hsome : sum_by col rs !! s
                    = Some (enrollment_sum (records_with (fun c => as_str (col c)) s rs))).
    { apply sum_by_lookup. split; [reflexivity|]. by rewrite Hg. }
    congruence.
Qed.

Lemma sum_values_rows (col : Classified -> pyval) (col' : Row -> pyval) rs :
  Forall (fun c => col c = col' (base c)) rs ->
  wrap64 (sum_values (sum_by col rs))
  = series_sum (List.map enrollment
                  (List.filter (fun r => notna (col' r)) (List.map base rs))).
Proof.
  intros Hcol. rewrite sum_values_sum_by, <- (notna_rows col col' rs Hcol).
  by rewrite List.map_map.
Qed.

Lemma sum_values_rows_exact (col : Classified -> pyval) (col' : Row -> pyval) rs :
  Forall (fun c => col c = col' (base c)) rs ->
  no_overflow (List.map enrollment (List.map base rs)) ->
  sum_values (sum_by col rs)
  = sum_list (List.map enrollment
                (List.filter (fun r => notna (col' r)) (List.map base rs))).
Proof.
  intros Hcol Hno. rewrite List.map_map in Hno.
  rewrite (sum_values_sum_by_exact _ _ Hno), <- (notna_rows col col' rs Hcol).
  by rewrite List.map_map.
Qed.

(** without overflow the entry of a group is the exact sum *)
Lemma group_total_exact (p : Row -> bool) l :
  no_overflow (List.map enrollment l) ->
  group_total series_sum (List.filter p l) = group_total sum_list (List.filter p l).
Proof.
  intros Hno. unfold group_total. destruct (List.filter p l) as [|r g] eqn:Hg; [reflexivity|].
  f_equal. apply series_sum_exact.
  apply no_overflow_sublist with (List.map enrollment l); [|exact Hno].
  apply (fmap_sublist enrollment). rewrite <- Hg. apply List_filter_sublist.
Qed.

Lemma filter_all {A} (f : A -> bool) l :
  (forall x, f x = true) -> List.filter f l = l.
Proof.
  intros Hf. induction l as [|x l IH]; [reflexivity|].
  cbn [List.filter]. by rewrite Hf, IH.
Qed.

(** X3. An entry of [by_state] is the int64 sum of the enrollments of
    the records with that state, a sum that wraps around at 2^63, and the
    state has an entry exactly when the table has such a record; with an
    organization column, [by_org] holds the same for the organizations.
    When the enrollments of the table cannot overflow, the entries are the
    exact sums. *)
Theorem dimension_entries (pd : Pandas) (now : string) (df : Frame) (snap : Snapshot) :
  aggregate_enrollment pd now df = Some snap ->
  (forall s, by_state snap !! s = group_total series_sum (rows_with state s (rows df)))
  /\ (has_organization df = true ->
      forall o, by_org snap !! o
                = group_total series_sum (rows_with organization o (rows df)))
  /\ (no_overflow (List.map enrollment (rows df)) ->
      (forall s, by_state snap !! s = group_total sum_list (rows_with state s (rows df)))
      /\ (has_organization df = true ->
          forall o, by_org snap !! o
                    = group_total sum_list (rows_with organization o (rows df)))).
Proof.
  intros Hagg.
  apply aggregate_enrollment_inv in Hagg
    as (rs & Hrs & _ & _ & Horg & _ & Hstate & _).
  pose proof (classified_rows _ _ Hrs) as [Hbase _].
  assert (Hs : forall s, by_state snap !! s
                         = group_total series_sum (rows_with state s (rows df))).
  { intros s. rewrite Hstate, <- Hbase.
    apply (sum_by_entry (fun c => state (base c)) state).
    by apply Forall_forall. }
  assert (Ho : has_organization df = true ->
               forall o, by_org snap !! o
                         = group_total series_sum (rows_with organization o (rows df))).
  { intros Hwith o. rewrite Horg, <- Hbase.
    apply (sum_by_entry parent_org organization).
    by apply classified_parent with df. }
  split; [exact Hs|]. split; [exact Ho|].
  intros Hno. split.
  - intros s. rewrite Hs. by apply group_total_exact.
  - intros Hwith o. rewrite (Ho Hwith). by apply group_total_exact.
Qed.

Lemma dimension_entries_witness :
  exists snap,
    aggregate_enrollment pandas_3 "2025-01-01" gaps_frame = Some snap
    /\ by_state snap !! "CA" = Some 190
    /\ by_state snap !! "NY" = None
    /\ by_org snap !! "Humana" = Some 157.
Proof.
  destruct (aggregate_enrollment pandas_3 "2025-01-01" gaps_frame) as [snap|] eqn:Hagg;
    [|vm_compute in Hagg; discriminate Hagg].
  exists snap. split; [reflexivity|].
  destruct (dimension_entries pandas_3 "2025-01-01" gaps_frame snap Hagg)
    as (_ & _ & Hexact).
  destruct Hexact as [Hstate Horg]; [vm_compute; reflexivity|].
  rewrite !Hstate, (Horg eq_refl). repeat split.
Defined.

(** X4. The total enrollment is the int64 sum of the enrollment column,
    which wraps around at 2^63.  Modulo 2^64, the entries of
    [by_plan_type] add up to it, the entries of [by_state] to the
    enrollment of the records whose state is not missing, and, with an
    organization column, those of [by_org] to the enrollment of the records
    whose organization is not missing.  When the enrollments of the table
    cannot overflow, these are equalities of integers: a record with a
    missing state or organization counts in the total and in no entry of
    that dimension. *)
Theorem dimension_sums (pd : Pandas) (now : string) (df : Frame) (snap : Snapshot) :
  aggregate_enrollment pd now df = Some snap ->
  total_enrollment (metadata snap) = series_sum (List.map enrollment (rows df))
  /\ wrap64 (sum_values (by_plan_type snap)) = total_enrollment (metadata snap)
  /\ wrap64 (sum_values (by_state snap))
     = series_sum (List.map enrollment (List.filter (fun r => notna (state r)) (rows df)))
  /\ (has_organization df = true ->
      wrap64 (sum_values (by_org snap))
      = series_sum (List.map enrollment
                      (List.filter (fun r => notna (organization r)) (rows df))))
  /\ (no_overflow (List.map enrollment (rows df)) ->
      total_enrollment (metadata snap) = sum_list (List.map enrollment (rows df))
      /\ sum_values (by_plan_type snap) = total_enrollment (metadata snap)
      /\ sum_values (by_state snap)
         = sum_list (List.map enrollment
                       (List.filter (fun r => notna (state r)) (rows df)))
      /\ (has_organization df = true ->
          sum_values (by_org snap)
          = sum_list (List.map enrollment
                        (List.filter (fun r => notna (organization r)) (rows df))))).
Proof.
  intros Hagg.
  apply aggregate_enrollment_inv in Hagg
    as (rs & Hrs & Htotal & _ & Horg & Hplan & Hstate & _).
  pose proof (classified_rows _ _ Hrs) as [Hbase _].
  split; [exact Htotal|]. split; [|split; [|split]].
  - rewrite Hplan, Htotal, <- Hbase, sum_values_sum_by, List.map_map.
    by rewrite filter_all.
  - rewrite Hstate, <- Hbase.
    apply (sum_values_rows (fun c => state (base c)) state).
    by apply Forall_forall.
  - intros Hwith. rewrite Horg, <- Hbase.
    apply (sum_values_rows parent_org organization).
    by apply classified_parent with df.
  - intros Hno.
    assert (Hexact : total_enrollment (metadata snap)
                     = sum_list (List.map enrollment (rows df)))
      by (rewrite Htotal; by apply series_sum_exact).
    rewrite <- Hbase in Hno.
    split; [exact Hexact|]. split; [|split].
    + rewrite Hplan, Hexact, <- Hbase.
      rewrite List.map_map in Hno. rewrite (sum_values_sum_by_exact _ _ Hno).
      by rewrite List.map_map, filter_all.
    + rewrite Hstate, <- Hbase.
      apply (sum_values_rows_exact (fun c => state (base c)) state); [|exact Hno].
      by apply Forall_forall.
    + intros Hwith. rewrite Horg, <- Hbase.
      apply (sum_values_rows_exact parent_org organization); [|exact Hno].
      by apply classified_parent with df.
Qed.

Lemma dimension_sums_witness :
  (exists snap,
     aggregate_enrollment pandas_3 "2025-01-01" gaps_frame = Some snap
     /\ total_enrollment (metadata snap) = 197
     /\ sum_values (by_plan_type snap) = 197
     /\ sum_values (by_state snap) = 190
     /\ sum_values (by_org snap) = 157)
  /\ (exists snap,
        aggregate_enrollment pandas_3 "2025-01-01" overflow_frame = Some snap
        /\ total_enrollment (metadata snap) = - 2 ^ 63
        /\ wrap64 (sum_values (by_plan_type snap)) = - 2 ^ 63).
Proof.
  split.
  - destruct (aggregate_enrollment pandas_3 "2025-01-01" gaps_frame) as [snap|] eqn:Hagg;
      [|vm_compute in Hagg; discriminate Hagg].
    exists snap. split; [reflexivity|].
    destruct (dimension_sums pandas_3 "2025-01-01" gaps_frame snap Hagg)
      as (_ & _ & _ & _ & Hexact).
    destruct Hexact as (Htotal & Hplan & Hstate & Horg); [vm_compute; reflexivity|].
    rewrite Hplan, Hstate, (Horg eq_refl), Htotal. repeat split.
  - destruct (aggregate_enrollment pandas_3 "2025-01-01" overflow_frame) as [snap|] eqn:Hagg;
      [|vm_compute in Hagg; discriminate Hagg].
    exists snap. split; [reflexivity|].
    destruct (dimension_sums pandas_3 "2025-01-01" overflow_frame snap Hagg)
      as (Htotal & Hplan & _).
    rewrite Hplan, Htotal. split; vm_compute; reflexivity.
Defined.

(** ** Per-contract summary *)

Lemma max_map_ge (f : string -> nat) l v :
  v ∈ l -> (f v <= fold_right Nat.max O (List.map f l))%nat.
Proof.
  induction 1 as [v l|v w l _ IH]; simpl; lia.
Qed.

Lemma max_map_attained (f : string -> nat) l :
  l <> [] -> exists v, v ∈ l /\ f v = fold_right Nat.max O (List.map f l).
Proof.
  induction l as [|w l IH]; [done|]. intros _. simpl.
  destruct l as [|w' l'].
  - exists w. split; [left|]. simpl. lia.
  - destruct IH as (v & Hv & Hmax); [done|].
    destruct (Nat.max_spec (f w) (fold_right Nat.max O (List.map f (w' :: l'))))
      as [[_ ->]|[_ ->]].
    + exists v. split; [by right|exact Hmax].
    + exists w. split; [left|reflexivity].
Qed.

Lemma unique_elem x l : x ∈ unique l <-> x ∈ l.
Proof.
  induction l as [|y l IH]; [reflexivity|].
  cbn [unique]. rewrite !elem_of_cons, list_elem_of_In, filter_In, <- list_elem_of_In, IH.
  destruct (String.eqb_spec x y) as [->|Hne]; simpl; [tauto|].
  split; [tauto|]. intros [?|?]; [tauto|]. right. split; [assumption|reflexivity].
Qed.

Lemma mode_elem v l :
  v ∈ mode l <-> v ∈ l /\ occurrences v l = max_occurrences l.
Proof.
  unfold mode. rewrite merge_sort_Permutation.
  rewrite list_elem_of_In, filter_In, <- list_elem_of_In, unique_elem.
  by rewrite Nat.eqb_eq.
Qed.

(** the mode that is picked is a most frequent value, and the smallest
    of them *)
Lemma mode_or_unknown_spec l :
  l <> [] ->
  mode_or_unknown l ∈ l
  /\ forall v, v ∈ l ->
       (occurrences v l <= occurrences (mode_or_unknown l) l)%nat
       /\ (occurrences v l = occurrences (mode_or_unknown l) l ->
           str_le (mode_or_unknown l) v).
Proof.
  intros Hne. unfold mode_or_unknown.
  destruct (max_map_attained (fun v => occurrences v l) l Hne) as (w & Hw & Hmax).
  fold (max_occurrences l) in Hmax.
  assert (Hwm : w ∈ mode l) by (by apply mode_elem).
  pose proof (StronglySorted_merge_sort str_le
                (List.filter (fun v => Nat.eqb (occurrences v l) (max_occurrences l))
                   (unique l))) as Hsorted.
  fold (mode l) in Hsorted.
  destruct (mode l) as [|m ms] eqn:Hmode; [by apply elem_of_nil in Hwm|].
  assert (Hm : m ∈ l /\ occurrences m l = max_occurrences l).
  { apply mode_elem. rewrite Hmode. left. }
  destruct Hm as [Hml Hmmax]. split; [exact Hml|].
  intros v Hv. split.
  - rewrite Hmmax. apply (max_map_ge (fun v => occurrences v l)), Hv.
  - intros Heq.
    assert (Hvm : v ∈ m :: ms).
    { rewrite <- Hmode. apply mode_elem. split; [exact Hv|congruence]. }
    apply elem_of_cons in Hvm as [->|Hvm]; [reflexivity|].
    apply StronglySorted_inv in Hsorted as [_ Hall].
    rewrite Forall_forall in Hall. by apply Hall.
Qed.

Lemma agg_first_spec l s :
  agg_first l = PyStr s
  <-> exists l1 l2, l = (l1 ++ PyStr s :: l2)%list /\ Forall (fun v => isna v = true) l1.
Proof.
  unfold agg_first, dropna. split.
  - induction l as [|v l IH]; [discriminate|].
    destruct v as [| |t]; cbn [omap list_omap as_str].
    + intros (l1 & l2 & -> & Hl1)%IH. exists (PyNone :: l1), l2. split; [reflexivity|].
      by constructor.
    + intros (l1 & l2 & -> & Hl1)%IH. exists (PyNaN :: l1), l2. split; [reflexivity|].
      by constructor.
    + intros [= ->]. exists [], l. split; [reflexivity|constructor].
  - intros (l1 & l2 & -> & Hl1).
    induction Hl1 as [|v l1 Hv _ IH]; [reflexivity|].
    destruct v; [exact IH|exact IH|discriminate].
Qed.

Lemma contract_details_lookup with_organization rs k info :
  contract_details with_organization rs !! k = Some info
  <-> info = contract_summary with_organization
               (records_with (fun c => as_str (contract_number (base c))) k rs)
      /\ records_with (fun c => as_str (contract_number (base c))) k rs <> [].
Proof.
  unfold contract_details. rewrite to_dict_lookup_NoDup.
  - rewrite list_elem_of_In, in_map_iff. split.
    + intros ([k' g] & [= -> <-] & Hin%list_elem_of_In).
      apply groupby_elem in Hin as [-> Hne]. by split.
    + intros [-> Hne].
      exists (k, records_with (fun c => as_str (contract_number (base c))) k rs).
      split; [reflexivity|]. apply list_elem_of_In, groupby_elem. by split.
  - rewrite <- list_fmap_compose.
    apply (groupby_NoDup str_le (fun c => as_str (contract_number (base c))) rs).
Qed.

(** X5. A contract number has an entry in [contracts] exactly when the
    table has a record with it.  The entry holds the int64 sum of the
    enrollments of the contract's records, which wraps around at 2^63 and
    is their exact sum when the enrollments of the table cannot overflow;
    its plan type is one of the
    most frequent plan types among them and, when several are equally
    frequent, the smallest of these in the order of strings, wherever they
    stand in the table; its parent organization, when it is a string, is
    the first one of the contract's records that is not missing. *)
Theorem contract_summary_rule (pd : Pandas) (now : string) (df : Frame) (snap : Snapshot)
    (rs : list Classified) (k : string) :
  aggregate_enrollment pd now df = Some snap ->
  mapM (classify_row df) (rows df) = Some rs ->
  match contracts snap !! k with
  | None => records_with (fun c => as_str (contract_number (base c))) k rs = []
  | Some info =>
      let g := records_with (fun c => as_str (contract_number (base c))) k rs in
      let types := List.map plan_type g in
      g <> []
      /\ ci_enrollment info = series_sum (List.map (fun c => enrollment (base c)) g)
      /\ (no_overflow (List.map enrollment (rows df)) ->
          ci_enrollment info = sum_list (List.map (fun c => enrollment (base c)) g))
      /\ ci_plan_type info ∈ types
      /\ (forall v, v ∈ types ->
            (occurrences v types <= occurrences (ci_plan_type info) types)%nat
            /\ (occurrences v types = occurrences (ci_plan_type info) types ->
                str_le (ci_plan_type info) v))
      /\ (forall s,
            ci_parent_org info = PyStr s
            <-> exists l1 l2,
                  List.map parent_org g = (l1 ++ PyStr s :: l2)%list
                  /\ Forall (fun v => isna v = true) l1)
  end.
Proof.
  intros Hagg Hrs.
  apply aggregate_enrollment_inv in Hagg as (rs' & Hrs' & _ & _ & _ & _ & _ & Hcontracts).
  rewrite Hrs in Hrs'. injection Hrs' as <-. rewrite Hcontracts.
  destruct (contract_details (has_organization df) rs !! k) as [info|] eqn:Hlook.
  - apply contract_details_lookup in Hlook as [-> Hne].
    cbv zeta. cbn [ci_enrollment ci_plan_type ci_parent_org contract_summary].
    split; [exact Hne|]. split; [reflexivity|].
    split.
    { intros Hno. unfold enrollment_sum. apply series_sum_exact.
      apply no_overflow_sublist with (List.map enrollment (rows df)); [|exact Hno].
      apply classified_rows in Hrs as [<- _]. rewrite List.map_map.
      apply (fmap_sublist (fun c => enrollment (base c))). apply sublist_filter. }
    assert (Htypes : List.map plan_type
                       (records_with (fun c => as_str (contract_number (base c))) k rs)
                     <> []).
    { intros Hnil. apply Hne. by apply map_eq_nil in Hnil. }
    destruct (mode_or_unknown_spec _ Htypes) as [Hin Hmost].
    split; [exact Hin|]. split; [exact Hmost|].
    intros s. apply agg_first_spec.
  - destruct (records_with (fun c => as_str (contract_number (base c))) k rs)
      as [|c g] eqn:Hg; [reflexivity|].
    exfalso.
    assert (Hsome : contract_details (has_organization df) rs !! k
                    = Some (contract_summary (has_organization df)
                              (records_with
                                 (fun c => as_str (contract_number (base c))) k rs))).
    { apply contract_details_lookup. split; [reflexivity|]. by rewrite Hg. }
    congruence.
Qed.

Lemma contract_summary_rule_witness :
  exists snap info,
    aggregate_enrollment pandas_3 "2025-01-01" tie_frame = Some snap
    /\ contracts snap !! "H1234" = Some info
    /\ List.map plan_type tie_rows = ["PPO"; "HMO"]
    /\ ci_plan_type info = "HMO"
    /\ ci_parent_org info = PyStr "Acme Health"
    /\ ci_enrollment info = 30.
Proof.
  destruct (aggregate_enrollment pandas_3 "2025-01-01" tie_frame) as [snap|] eqn:Hagg;
    [|vm_compute in Hagg; discriminate Hagg].
  assert (Hrs : mapM (classify_row tie_frame) (rows tie_frame) = Some tie_rows)
    by (vm_compute; reflexivity).
  pose proof (contract_summary_rule pandas_3 "2025-01-01" tie_frame snap tie_rows "H1234" Hagg Hrs)
    as Hrule.
  destruct (contracts snap !! "H1234") as [info|] eqn:Hinfo;
    [|vm_compute in Hrule; discriminate Hrule].
  exists snap, info. split; [reflexivity|]. split; [exact Hinfo|].
  split; [vm_compute; reflexivity|].
  clear Hrule. apply aggregate_enrollment_inv in Hagg as (rs2 & Hrs2 & _ & _ & _ & _ & _ & Hc).
  rewrite Hrs in Hrs2. injection Hrs2 as <-.
  rewrite Hc in Hinfo. vm_compute in Hinfo. injection Hinfo as <-.
  repeat split.
Defined.

(** ** When the aggregator raises *)

Lemma or_empty_is_str v : is_Some (as_str (or_empty v)) <-> v <> PyNaN.
Proof.
  destruct v as [| |s]; unfold or_empty; simpl.
  - split; [discriminate|by eexists].
  - split; [by intros [? ?]|congruence].
  - destruct (String.eqb s ""); simpl; split; (discriminate || by eexists).
Qed.

Lemma identify_plan_type_returns c p o :
  is_Some (identify_plan_type c p o)
  <-> c <> PyNaN /\ (truthy c = true -> p <> PyNaN /\ o <> PyNaN).
Proof.
  unfold identify_plan_type.
  destruct c as [| |cid].
  - simpl. split; [|by eexists]. intros _. split; [discriminate|discriminate].
  - simpl. split; [by intros [? ?]|]. intros [? _]. congruence.
  - cbn [truthy]. destruct (String.eqb cid "") eqn:Hcid; cbn [negb].
    + split; [|by eexists]. intros _. split; [discriminate|discriminate].
    + cbn [as_str mbind option_bind].
      rewrite <- (or_empty_is_str p), <- (or_empty_is_str o).
      destruct (as_str (or_empty p)) as [pn|]; cbn [fmap option_fmap option_map mbind option_bind].
      * destruct (as_str (or_empty o)) as [ot|];
          cbn [fmap option_fmap option_map mbind option_bind].
        -- split.
           ++ intros _. split; [discriminate|]. intros _. split; by eexists.
           ++ intros _. destruct (PyStr.any _ _); [by eexists|].
              destruct (String.eqb _ "H"); [destruct (PyStr.contains _ _); by eexists|].
              destruct (String.eqb _ "R"); by eexists.
        -- split; [by intros [? ?]|]. intros [_ H].
           destruct (H eq_refl) as [_ [? ?]]. discriminate.
      * split; [by intros [? ?]|]. intros [_ H].
        destruct (H eq_refl) as [[? ?] _]. discriminate.
Qed.

Lemma get_or_empty_notnan present v :
  get_or_empty present v <> PyNaN <-> (present = true -> v <> PyNaN).
Proof.
  unfold get_or_empty. destruct present.
  - split; [auto|]. intros H. by apply H.
  - split; [discriminate|]. intros _. discriminate.
Qed.

Lemma classify_row_returns df r :
  has_organization df = true ->
  is_Some (classify_row df r) <-> classifiable df r.
Proof.
  intros Horg. unfold classify_row, classifiable. rewrite Horg.
  rewrite <- !get_or_empty_notnan, <- identify_plan_type_returns.
  destruct (identify_plan_type _ _ _); cbn [mbind option_bind].
  - split; by eexists.
  - split; by intros [? ?].
Qed.

(** the grouping by state alone has no group exactly when every state
    is missing *)
Lemma state_groups_nil rs :
  county_group false rs = [] <-> Forall (fun r => isna (state r) = true) (List.map base rs).
Proof.
  unfold county_group. rewrite groupby_nil, Forall_fmap. apply Forall_iff. intros c.
  unfold county_key_of_row, compose. by destruct (state (base c)).
Qed.

(** what the county loop does with the groups of a table: it raises when
    the grouping is by the state alone, its keys are tuples and there is
    a group *)
Lemma county_loop_returns pd df rs :
  mapM (classify_row df) (rows df) = Some rs ->
  negb (has_county df) && negb (scalar_group_keys pd)
  && negb (bool_decide (county_group (has_county df) rs = [])) = false
  <-> (has_county df = false -> scalar_group_keys pd = false ->
       Forall (fun r => isna (state r) = true) (rows df)).
Proof.
  intros Hrs. pose proof (classified_rows _ _ Hrs) as [Hbase _].
  destruct (has_county df); cbn [negb andb]; [split; [discriminate|done]|].
  destruct (scalar_group_keys pd); cbn [negb andb]; [split; [discriminate|done]|].
  rewrite <- Hbase, <- state_groups_nil.
  destruct (decide (county_group false rs = [])) as [Hg|Hg].
  - rewrite bool_decide_eq_true_2 by exact Hg. cbn [negb]. split; [done|done].
  - rewrite bool_decide_eq_false_2 by exact Hg. cbn [negb].
    split; [discriminate|]. intros H. by destruct (Hg (H eq_refl eq_refl)).
Qed.

(** X6. For a table with an organization column, [aggregate_enrollment]
    returns exactly when three things hold.  Every record can be given its
    plan type: its contract number is not missing and, unless that is
    empty, neither are its plan name and organization type in a table that
    has these columns.  The table has a record, where the assignment of
    [df.apply] raises for a table without one.  And the table has a county
    column or no record with a state, where the keys of a grouping by the
    state alone are tuples of length one, which the county loop cannot
    unpack. *)
Theorem aggregate_enrollment_returns (pd : Pandas) (now : string) (df : Frame) :
  has_organization df = true ->
  is_Some (aggregate_enrollment pd now df)
  <-> Forall (classifiable df) (rows df)
      /\ (empty_apply_raises pd = true -> rows df <> [])
      /\ (has_county df = false -> scalar_group_keys pd = false ->
          Forall (fun r => isna (state r) = true) (rows df)).
Proof.
  intros Horg. unfold aggregate_enrollment.
  assert (Hiff : is_Some (mapM (classify_row df) (rows df))
                 <-> Forall (classifiable df) (rows df)).
  { rewrite mapM_is_Some. apply Forall_iff. intros r.
    by apply classify_row_returns. }
  rewrite <- Hiff.
  assert (Hrows : empty_apply_raises pd && bool_decide (rows df = []) = false
                  <-> (empty_apply_raises pd = true -> rows df <> [])).
  { destruct (empty_apply_raises pd); cbn [andb]; [|split; [discriminate|done]].
    destruct (decide (rows df = [])) as [Hnil|Hnil].
    - rewrite bool_decide_eq_true_2 by exact Hnil.
      split; [discriminate|]. intros H. by destruct (H eq_refl).
    - rewrite bool_decide_eq_false_2 by exact Hnil. split; [done|done]. }
  rewrite <- Hrows.
  destruct (empty_apply_raises pd && bool_decide (rows df = [])).
  { split; [by intros [? ?]|]. by intros (_ & ? & _). }
  destruct (mapM (classify_row df) (rows df)) as [rs|] eqn:Hrs; cbn [mbind option_bind].
  - rewrite <- (county_loop_returns pd df rs Hrs).
    destruct (negb (has_county df) && _ && _).
    + split; [by intros [? ?]|]. by intros (_ & _ & ?).
    + split; [|by eexists]. intros _. split; [by eexists|]. split; reflexivity.
  - split; [by intros [? ?]|]. by intros ([? ?] & _).
Qed.

Lemma aggregate_enrollment_returns_witness :
  aggregate_enrollment pandas_3 "2025-01-01" blank_name_frame = None
  /\ aggregate_enrollment pandas_3 "2025-01-01" state_only_frame = None
  /\ aggregate_enrollment pandas_3 "2025-01-01" (mk_frame true false false []) = None
  /\ is_Some (aggregate_enrollment pandas_3 "2025-01-01" tie_frame).
Proof.
  assert (Hnone : forall df, ~ is_Some (aggregate_enrollment pandas_3 "2025-01-01" df) ->
                             aggregate_enrollment pandas_3 "2025-01-01" df = None).
  { intros df H. destruct (aggregate_enrollment _ _ df); [|reflexivity].
    exfalso. apply H. by eexists. }
  split; [|split; [|split]].
  - apply Hnone. intros Hsome.
    apply (aggregate_enrollment_returns pandas_3 "2025-01-01" blank_name_frame eq_refl)
      in Hsome as [Hall _].
    apply Forall_cons in Hall as [_ Hall]. apply Forall_cons in Hall as [[_ Hb] _].
    destruct (Hb eq_refl) as [Hname _]. by apply Hname.
  - apply Hnone. intros Hsome.
    apply (aggregate_enrollment_returns pandas_3 "2025-01-01" state_only_frame eq_refl)
      in Hsome as (_ & _ & Hst).
    specialize (Hst eq_refl eq_refl). apply Forall_cons in Hst as [Hst _]. discriminate Hst.
  - reflexivity.
  - apply (aggregate_enrollment_returns pandas_3 "2025-01-01" tie_frame eq_refl).
    split; [|split].
    + repeat constructor; try discriminate.
    + discriminate.
    + discriminate.
Defined.

(** ** County totals *)






(** ** What the delta engine reports *)

Section DeltaKeys.

Context {float : Type}.
Variable fdiv : Z -> Z -> float.
Variable times100 : float -> float.
Variable round2 : float -> float.

Lemma calculate_changes_inv current december changes :
  calculate_changes fdiv times100 round2 current december = Some changes ->
  (forall k,
     chg_counties changes !! k
     = (fun c => change_spec fdiv times100 round2 (cd_total c)
                   (from_option cd_total 0 (counties december !! k)))
       <$> counties current !! k)
  /\ (forall k,
        chg_by_org changes !! k
        = (fun n => change_spec fdiv times100 round2 n (default 0 (by_org december !! k)))
          <$> by_org current !! k)
  /\ (forall k,
        chg_by_state changes !! k
        = (fun n => change_spec fdiv times100 round2 n (default 0 (by_state december !! k)))
          <$> by_state current !! k)
  /\ total_change (chg_summary changes)
     = total_enrollment (metadata current) - total_enrollment (metadata december).
Proof.
  unfold calculate_changes.
  destruct (change_loop_spec fdiv times100 round2 cd_total cd_total
              (counties current) (counties december)) as (cs & -> & Hcs).
  destruct (change_loop_spec fdiv times100 round2 id id
              (by_org current) (by_org december)) as (os & -> & Hos).
  destruct (change_loop_spec fdiv times100 round2 id id
              (by_state current) (by_state december)) as (ss & -> & Hss).
  destruct (if 0 <? total_enrollment (metadata december) then _ else _) as [p|];
    [|discriminate].
  cbn [mbind option_bind]. intros [= <-].
  cbn [chg_counties chg_by_org chg_by_state chg_summary total_change].
  repeat split; assumption.
Qed.

End DeltaKeys.

(** X8. The changes that [calculate_changes] reports have exactly the
    keys of the current snapshot, in each of the three dimensions: a
    county, organization or state that only the baseline has is not
    reported at all, and one that only the current snapshot has is
    reported against a baseline of 0. *)
Theorem calculate_changes_keys (float : Type)
    (fdiv : Z -> Z -> float) (times100 round2 : float -> float)
    (current december : Snapshot) (changes : ChangeSet float) :
  calculate_changes fdiv times100 round2 current december = Some changes ->
  (forall k, is_Some (chg_counties changes !! k) <-> is_Some (counties current !! k))
  /\ (forall k, is_Some (chg_by_org changes !! k) <-> is_Some (by_org current !! k))
  /\ (forall k, is_Some (chg_by_state changes !! k) <-> is_Some (by_state current !! k))
  /\ (forall k n,
        by_state current !! k = Some n -> by_state december !! k = None ->
        (ch_december <$> chg_by_state changes !! k) = Some 0
        /\ (ch_change <$> chg_by_state changes !! k) = Some n).
Proof.
  intros (Hcs & Hos & Hss & _)%calculate_changes_inv.
  split; [|split; [|split]].
  - intros k. rewrite Hcs. apply fmap_is_Some.
  - intros k. rewrite Hos. apply fmap_is_Some.
  - intros k. rewrite Hss. apply fmap_is_Some.
  - intros k n Hcur Hdec. rewrite Hss, Hcur, Hdec. cbn.
    split; [reflexivity|]. f_equal. lia.
Qed.

Lemma calculate_changes_keys_witness :
  exists changes : ChangeSet Z,
    calculate_changes (fun a b => a / b) (fun x => x * 100) (fun x => x)
      current_example december_example = Some changes
    /\ chg_by_state changes !! "NY" = None
    /\ (ch_change <$> chg_by_state changes !! "CA") = Some 20
    /\ (ch_december <$> chg_by_state changes !! "TX") = Some 0.
Proof.
  destruct (calculate_changes (fun a b => a / b) (fun x => x * 100) (fun x => x)
              current_example december_example) as [changes|] eqn:Hchanges;
    [|vm_compute in Hchanges; discriminate Hchanges].
  exists changes. split; [reflexivity|].
  destruct (calculate_changes_keys Z _ _ _ _ _ _ Hchanges) as (_ & _ & Hkeys & Hnew).
  split.
  - destruct (chg_by_state changes !! "NY") eqn:Hny; [|reflexivity].
    exfalso. assert (Hsome : is_Some (by_state current_example !! "NY")).
    { apply Hkeys. by eexists. }
    vm_compute in Hsome. by destruct Hsome.
  - apply calculate_changes_inv in Hchanges as (_ & _ & Hss & _).
    rewrite !Hss. vm_compute. split; reflexivity.
Defined.

(** X9. Comparing a snapshot with itself reports, for every key, the
    same current and baseline value and the change 0, and a total change
    of 0. *)
Theorem calculate_changes_self (float : Type)
    (fdiv : Z -> Z -> float) (times100 round2 : float -> float)
    (snap : Snapshot) (changes : ChangeSet float) :
  calculate_changes fdiv times100 round2 snap snap = Some changes ->
  map_Forall (fun _ c => ch_december c = ch_current c /\ ch_change c = 0)
    (chg_counties changes)
  /\ map_Forall (fun _ c => ch_december c = ch_current c /\ ch_change c = 0)
       (chg_by_org changes)
  /\ map_Forall (fun _ c => ch_december c = ch_current c /\ ch_change c = 0)
       (chg_by_state changes)
  /\ total_change (chg_summary changes) = 0.
Proof.
  intros (Hcs & Hos & Hss & Htotal)%calculate_changes_inv.
  split; [|split; [|split]].
  - intros k c Hc. rewrite Hcs in Hc.
    destruct (counties snap !! k) as [cd|]; [|discriminate].
    injection Hc as <-. cbn. split; [reflexivity|lia].
  - intros k c Hc. rewrite Hos in Hc.
    destruct (by_org snap !! k) as [n|]; [|discriminate].
    injection Hc as <-. cbn. split; [reflexivity|lia].
  - intros k c Hc. rewrite Hss in Hc.
    destruct (by_state snap !! k) as [n|]; [|discriminate].
    injection Hc as <-. cbn. split; [reflexivity|lia].
  - rewrite Htotal. lia.
Qed.

Lemma calculate_changes_self_witness :
  exists changes : ChangeSet Z,
    calculate_changes (fun a b => a / b) (fun x => x * 100) (fun x => x)
      current_example current_example = Some changes
    /\ (ch_change <$> chg_by_state changes !! "CA") = Some 0
    /\ total_change (chg_summary changes) = 0.
Proof.
  destruct (calculate_changes (fun a b => a / b) (fun x => x * 100) (fun x => x)
              current_example current_example) as [changes|] eqn:Hchanges;
    [|vm_compute in Hchanges; discriminate Hchanges].
  exists changes. split; [reflexivity|].
  destruct (calculate_changes_self Z _ _ _ _ _ Hchanges) as (_ & _ & Hstate & Htotal).
  split; [|exact Htotal].
  destruct (chg_by_state changes !! "CA") as [c|] eqn:Hca.
  - cbn. f_equal. by apply (Hstate "CA" c Hca).
  - exfalso. apply calculate_changes_inv in Hchanges as (_ & _ & Hss & _).
    rewrite Hss in Hca. vm_compute in Hca. discriminate Hca.
Defined.

(** ** Range of the parent organization, and what it depends on *)

Lemma static_table_values :
  forallb (fun kv => str_in kv.2 parent_orgs) PARENT_ORG_MAPPING_items = true.
Proof. vm_compute. reflexivity. Qed.

Lemma keyword_table_keys :
  forallb (fun kv => str_in kv.1 parent_orgs) org_keywords = true.
Proof. vm_compute. reflexivity. Qed.

Lemma PARENT_ORG_MAPPING_range k org :
  PARENT_ORG_MAPPING !! k = Some org -> org ∈ parent_orgs.
Proof.
  rewrite PARENT_ORG_MAPPING_lookup. intros Hin%last_defined_elem.
  pose proof static_table_values as Hall. rewrite forallb_forall in Hall.
  apply list_elem_of_In, Hall in Hin. by apply str_in_elem.
Qed.

Lemma first_keyword_match_range name org :
  first_keyword_match name org_keywords = Some org -> org ∈ parent_orgs.
Proof.
  rewrite first_keyword_match_find.
  destruct (List.find _ org_keywords) as [[parent kws]|] eqn:Hfind; [|discriminate].
  intros [= <-]. apply find_some in Hfind as [Hin _].
  pose proof keyword_table_keys as Hall. rewrite forallb_forall in Hall.
  apply Hall in Hin. by apply str_in_elem.
Qed.

(** X11. Whatever its arguments, a parent organization that
    [get_parent_org] returns is one of ten names: the nine organizations
    of the static and keyword tables, or "Other". *)
Theorem get_parent_org_range (contract_id org_name : pyval) (org : string) :
  get_parent_org contract_id org_name = Some org -> org ∈ parent_orgs.
Proof.
  unfold get_parent_org.
  destruct (negb (truthy contract_id)).
  - intros [= <-]. apply str_in_elem. reflexivity.
  - destruct (as_str contract_id) as [cid|]; [|discriminate].
    cbn [mbind option_bind].
    destruct (PARENT_ORG_MAPPING !! contract_base cid) as [o|] eqn:Hstatic.
    + intros [= <-]. by eapply PARENT_ORG_MAPPING_range.
    + destruct (as_str (or_empty org_name)) as [name|]; [|discriminate].
      cbn [fmap option_fmap option_map mbind option_bind].
      destruct (first_keyword_match (PyStr.lower name) org_keywords) as [p|] eqn:Hkw.
      * intros [= <-]. by eapply first_keyword_match_range.
      * intros [= <-]. apply str_in_elem. reflexivity.
Qed.

Lemma get_parent_org_range_witness :
  get_parent_org (PyStr "H5521-001") (PyStr "") = Some "CVS Health (Aetna)"
  /\ "CVS Health (Aetna)" ∈ parent_orgs.
Proof.
  assert (H : get_parent_org (PyStr "H5521-001") (PyStr "") = Some "CVS Health (Aetna)")
    by (vm_compute; reflexivity).
  split; [exact H|]. exact (get_parent_org_range _ _ _ H).
Defined.

(** X12. For contract numbers that are not empty, the parent organization
    depends on the contract number only through its first five
    characters: two contract numbers that agree on them get the same
    answer, whatever follows. *)
Theorem get_parent_org_prefix (cid1 cid2 : string) (org_name : pyval) :
  cid1 <> "" -> cid2 <> "" ->
  PyStr.take 5 cid1 = PyStr.take 5 cid2 ->
  get_parent_org (PyStr cid1) org_name = get_parent_org (PyStr cid2) org_name.
Proof.
  intros H1 H2 Htake. unfold get_parent_org.
  rewrite !truthy_str by assumption.
  cbn [negb as_str mbind option_bind].
  by rewrite !contract_base_take, Htake.
Qed.

Lemma get_parent_org_prefix_witness :
  get_parent_org (PyStr "H0028-001") (PyStr "") = get_parent_org (PyStr "H0028") (PyStr "").
Proof.
  apply (get_parent_org_prefix "H0028-001" "H0028" (PyStr ""));
    [discriminate|discriminate|reflexivity].
Defined.

(** ** What [process_csv] returns *)

Lemma make_rows_spec lookup columns rs ns rows' :
  length rs = length ns ->
  make_rows lookup columns rs ns = Some rows' ->
  Forall2 (fun (rn : list pyval * Z) row =>
             contract_number row = cell_of columns "contract_number" rn.1
             /\ state row = cell_of columns "state" rn.1
             /\ county row = cell_of columns "county" rn.1
             /\ fips row = cell_of columns "fips" rn.1
             /\ plan_name row = cell_of columns "plan_name" rn.1
             /\ org_type row = cell_of columns "org_type" rn.1
             /\ enrollment row = rn.2
             /\ organization_of lookup columns rn.1 = Some (organization row))
    (zip rs ns) rows'.
Proof.
  revert ns rows'. induction rs as [|r rs IH]; intros [|n ns] rows' Hlen; try discriminate.
  - intros [= <-]. constructor.
  - cbn [make_rows]. unfold make_row.
    destruct (organization_of lookup columns r) as [org|] eqn:Horg; [|discriminate].
    cbn [mbind option_bind].
    destruct (make_rows lookup columns rs ns) as [rest|] eqn:Hrest; [|discriminate].
    cbn [mbind option_bind]. intros [= <-].
    constructor; [cbn; by rewrite Horg|]. apply IH; [|exact Hrest].
    simpl in Hlen. lia.
Qed.

Lemma Forall2_zip_combine {A B C D} (g : A -> D) (R : D -> B -> Prop)
    (P : A * B -> C -> Prop) (Q : A -> C -> Prop) l ns rs :
  Forall2 R (List.map g l) ns ->
  Forall2 P (zip l ns) rs ->
  (forall a n c, R (g a) n -> P (a, n) c -> Q a c) ->
  Forall2 Q l rs.
Proof.
  intros HR HP HQ. revert ns rs HR HP.
  induction l as [|a l IH]; intros ns rs HR HP.
  - apply Forall2_nil_inv_l in HR as ->. apply Forall2_nil_inv_l in HP as ->.
    constructor.
  - apply Forall2_cons_inv_l in HR as (n & ns' & Hn & HR & ->).
    apply Forall2_cons_inv_l in HP as (c & rs' & Hc & HP & ->).
    constructor; [by eapply HQ|by eapply IH].
Qed.

(** the organization that [get_org] gives a contract is one of the
    contract-info table or one of the ten names of [get_parent_org] *)
Lemma get_org_range lookup contract org :
  get_org lookup contract = Some org ->
  org ∈ parent_orgs \/ exists k, lookup !! k = Some org.
Proof.
  unfold get_org. destruct (isna contract).
  { intros [= <-]. left. apply str_in_elem. reflexivity. }
  destruct (as_str contract ≫= (lookup !!.)) as [o|] eqn:Hlook.
  - intros [= <-]. right. destruct (as_str contract) as [k|]; [|discriminate].
    by exists k.
  - unfold get_parent_org. destruct (negb (truthy contract)).
    { intros [= <-]. left. apply str_in_elem. reflexivity. }
    destruct (as_str contract) as [cid|]; [|discriminate].
    cbn [mbind option_bind].
    destruct (PARENT_ORG_MAPPING !! contract_base cid) as [o|] eqn:Hstatic.
    + intros [= <-]. left. exact (PARENT_ORG_MAPPING_range _ _ Hstatic).
    + cbn [or_empty truthy String.eqb negb as_str fmap option_fmap option_map].
      intros [= <-]. left. apply str_in_elem. reflexivity.
Qed.

(** X10. When [process_csv] returns a table, it has printed nothing about
    columns, every required field has a matching column, and the table
    has an organization column and one record for each record of the
    file, in the same order: the text cells are those of the file, and
    the enrollment is the coerced enrollment cell, for which the commas
    are removed only by a pandas that gives the column the dtype
    [object].  When the file has no organization column, every record
    gets an organization, which is a string: one of the contract-info
    table, or one of the ten names that [get_parent_org] returns. *)
Theorem process_csv_returns (pd : Pandas)
    (float_to_int : list pyval -> string -> option Z)
    (contract_to_org : gmap string string) (raw : RawTable)
    (out : list output) (df : Frame) :
  process_csv pd float_to_int contract_to_org raw = (out, Returns df) ->
  let columns := normalized_columns (raw_columns raw) in
  let column := List.map (cell_of columns "enrollment") (raw_rows raw) in
  out = []
  /\ missing_fields_spec (raw_columns raw) = []
  /\ has_organization df = true
  /\ length (rows df) = length (raw_rows raw)
  /\ Forall2 (fun r row =>
                contract_number row = cell_of columns "contract_number" r
                /\ state row = cell_of columns "state" r
                /\ county row = cell_of columns "county" r
                /\ fips row = cell_of columns "fips" r
                /\ plan_name row = cell_of columns "plan_name" r
                /\ org_type row = cell_of columns "org_type" r
                /\ coerce_cell pd float_to_int column (cell_of columns "enrollment" r)
                   = Some (enrollment row)
                /\ organization_of contract_to_org columns r = Some (organization row))
       (raw_rows raw) (rows df)
  /\ (str_in "organization" columns = false ->
      Forall (fun row => exists org,
                organization row = PyStr org
                /\ (org ∈ parent_orgs \/ exists k, contract_to_org !! k = Some org))
        (rows df)).
Proof.
  unfold process_csv, check_required. rewrite missing_columns_spec.
  destruct (missing_fields_spec (raw_columns raw)) as [|field fields]; [|discriminate].
  unfold coerce_column.
  set (columns := normalized_columns (raw_columns raw)).
  set (column := List.map (cell_of columns "enrollment") (raw_rows raw)).
  destruct (mapM (coerce_cell pd float_to_int column) column) as [ints|] eqn:Hints;
    [|discriminate].
  destruct (make_rows contract_to_org columns (raw_rows raw) ints) as [rs|] eqn:Hrows;
    [|discriminate].
  intros [= <- <-]. cbv zeta. cbn [has_organization rows].
  apply mapM_Some in Hints.
  assert (Hlen : length (raw_rows raw) = length ints).
  { apply Forall2_length in Hints. unfold column in Hints.
    by rewrite length_map in Hints. }
  apply (make_rows_spec _ _ _ _ _ Hlen) in Hrows.
  split; [reflexivity|]. split; [reflexivity|]. split; [reflexivity|].
  split; [|split].
  - apply Forall2_length in Hrows. rewrite length_zip in Hrows. lia.
  - apply (Forall2_zip_combine (cell_of columns "enrollment") _ _ _ _ _ _ Hints Hrows).
    intros r n row Hn (? & ? & ? & ? & ? & ? & Henr & ?). cbn [fst snd] in *.
    rewrite Henr. by repeat split.
  - intros Hno. apply Forall2_Forall_r with (1 := Hrows).
    apply Forall_forall. intros [r n] _ row (_ & _ & _ & _ & _ & _ & _ & Horg).
    unfold organization_of in Horg. rewrite Hno in Horg. cbn [fst] in Horg.
    destruct (get_org contract_to_org (cell_of columns "contract_number" r))
      as [org|] eqn:Hget; [|discriminate].
    injection Horg as <-. exists org. split; [reflexivity|].
    by eapply get_org_range.
Qed.

Lemma process_csv_returns_witness :
  (exists df,
     process_csv pandas_3 (fun _ _ => None) ∅ masked_table = ([], Returns df)
     /\ normalized_columns (raw_columns masked_table)
        = ["contract_number"; "state"; "enrollment"; "plan_name"]
     /\ List.map enrollment (rows df) = [0; 0]
     /\ List.map organization (rows df) = [PyStr "Humana"; PyStr "CVS Health (Aetna)"]
     /\ length (rows df) = 2%nat)
  /\ (exists df,
        process_csv object_pandas (fun _ _ => None) ∅ masked_table = ([], Returns df)
        /\ List.map enrollment (rows df) = [1234; 0]).
Proof.
  split.
  - destruct (process_csv pandas_3 (fun _ _ => None) ∅ masked_table) as [out [df|e]] eqn:Hcsv;
      [|vm_compute in Hcsv; discriminate Hcsv].
    destruct (process_csv_returns _ _ _ _ _ _ Hcsv) as (-> & _ & _ & Hlen & _).
    exists df. split; [reflexivity|]. split; [vm_compute; reflexivity|].
    vm_compute in Hcsv. injection Hcsv as <-. repeat split.
  - destruct (process_csv object_pandas (fun _ _ => None) ∅ masked_table)
      as [out [df|e]] eqn:Hcsv; [|vm_compute in Hcsv; discriminate Hcsv].
    destruct (process_csv_returns _ _ _ _ _ _ Hcsv) as (-> & _).
    exists df. split; [reflexivity|].
    vm_compute in Hcsv. injection Hcsv as <-. reflexivity.
Defined.

(** ** The contract-info table *)

Lemma load_contract_info_display rows :
  load_contract_info rows = dict_display (omap contract_info_item rows).
Proof.
  unfold load_contract_info, dict_display. generalize (∅ : gmap string string).
  induction rows as [|[c o] rows IH]; intros d; [reflexivity|].
  cbn [fold_left omap list_omap].
  destruct c as [| |contract]; try apply IH.
  destruct o as [| |org]; apply IH.
Qed.

Lemma last_defined_snoc {V} k k' (v : V) l :
  last_defined k (l ++ [(k', v)])
  = if String.eqb k' k then Some v else last_defined k l.
Proof.
  unfold last_defined. rewrite rev_app_distr. cbn [rev app].
  unfold first_defined. cbn [List.find fst].
  destruct (String.eqb k' k); reflexivity.
Qed.

Lemma contract_info_last rows c org :
  last_defined c (omap contract_info_item rows) = Some org
  <-> exists l1 l2,
        rows = (l1 ++ (PyStr c, PyStr org) :: l2)%list
        /\ Forall (fun row => forall o, row <> (PyStr c, PyStr o)) l2.
Proof.
  split.
  - induction rows as [|row rows IH] using rev_ind; [discriminate|].
    rewrite omap_app. cbn [omap list_omap].
    destruct (contract_info_item row) as [[c' o']|] eqn:Hitem.
    + rewrite last_defined_snoc.
      assert (Hrow : row = (PyStr c', PyStr o')).
      { destruct row as [[| |?] [| |?]]; simplify_eq/=. reflexivity. }
      destruct (String.eqb_spec c' c) as [->|Hne].
      * intros [= ->]. exists rows, []. split; [by rewrite Hrow|constructor].
      * intros (l1 & l2 & -> & Hl2)%IH.
        exists l1, (l2 ++ [row])%list. split; [by rewrite <- app_assoc|].
        apply Forall_app. split; [exact Hl2|]. constructor; [|constructor].
        intros o. rewrite Hrow. congruence.
    + rewrite app_nil_r.
      intros (l1 & l2 & -> & Hl2)%IH.
      exists l1, (l2 ++ [row])%list. split; [by rewrite <- app_assoc|].
      apply Forall_app. split; [exact Hl2|]. constructor; [|constructor].
      intros o ->. discriminate Hitem.
  - intros (l1 & l2 & -> & Hl2).
    rewrite omap_app. cbn [omap list_omap contract_info_item].
    apply last_defined_split.
    apply Forall_forall. intros [c' o'] (row & Hrow & Hitem)%list_elem_of_omap.
    rewrite Forall_forall in Hl2. specialize (Hl2 row Hrow).
    cbn [fst]. intros ->.
    destruct row as [[| |?] [| |?]]; simplify_eq/=. by eapply Hl2.
Qed.

(** X13. The table that [load_contract_info] returns is empty when there
    is no contract-info file, or when the file lacks a contract column or
    a parent-organization column.  Otherwise a contract number is mapped
    to an organization exactly when that organization stands in the last
    row of the file that has this contract number and an organization:
    rows with a missing cell are skipped, and a later row replaces an
    earlier one. *)
Theorem load_contract_info_last_row (raw : RawTable) (c org : string) :
  load_contract_info_file None = ∅
  /\ (contract_info_cells raw = None -> load_contract_info_file (Some raw) = ∅)
  /\ (load_contract_info_file (Some raw) !! c = Some org
      <-> exists cells l1 l2,
            contract_info_cells raw = Some cells
            /\ cells = (l1 ++ (PyStr c, PyStr org) :: l2)%list
            /\ Forall (fun row => forall o, row <> (PyStr c, PyStr o)) l2).
Proof.
  split; [reflexivity|]. split.
  - intros Hnone. unfold load_contract_info_file. by rewrite Hnone.
  - unfold load_contract_info_file.
    destruct (contract_info_cells raw) as [cells|].
    + rewrite load_contract_info_display, dict_display_lookup, contract_info_last.
      split.
      * intros (l1 & l2 & Hcells & Hl2). by exists cells, l1, l2.
      * intros (cells' & l1 & l2 & [= <-] & Hcells & Hl2). by exists l1, l2.
    + rewrite lookup_empty. split; [discriminate|].
      intros (cells & _ & _ & Hnone & _). discriminate Hnone.
Qed.

Example load_contract_info_example :
  let file :=
    {| raw_columns := ["Contract ID"; "Organization Name"; "Parent Organization"];
       raw_rows := [ [PyStr "H0028"; PyStr "Plan A"; PyStr "Acme Health"];
                     [PyStr "H0028"; PyStr "Plan B"; PyNaN];
                     [PyStr "H0028"; PyStr "Plan C"; PyStr "Zenith Care"];
                     [PyNaN; PyStr "Plan D"; PyStr "Nobody"] ] |} in
  contract_info_columns (List.map standardize_column (raw_columns file))
  = Some ("contract_id", "parent_organization")
  /\ map_to_list (load_contract_info_file (Some file)) = [("H0028", "Zenith Care")].
Proof. split; vm_compute; reflexivity. Qed.

(** ** The download script *)

(** X14. For a date whose month is between 1 and 12,
    [get_current_data_month] returns a month between 1 and 12, one month
    before the current one from the 15th on and two months before it
    earlier in the month, the year going back when the count passes
    January. *)
Theorem data_month_offset (today_year today_month today_day : Z) :
  1 <= today_month <= 12 ->
  let '(data_year, data_month) :=
    FetchCmsData.get_current_data_month today_year today_month today_day in
  1 <= data_month <= 12
  /\ 12 * data_year + data_month
     = 12 * today_year + today_month - (if today_day <? 15 then 2 else 1).
Proof.
  intros Hmonth. unfold FetchCmsData.get_current_data_month.
  destruct (today_day <? 15);
    match goal with |- context [?a <=? 0] => destruct (Z.leb_spec a 0) end; lia.
Qed.

Lemma data_month_offset_witness :
  FetchCmsData.get_current_data_month 2025 1 10 = (2024, 11)
  /\ FetchCmsData.get_current_data_month 2025 1 15 = (2024, 12)
  /\ FetchCmsData.get_current_data_month 2025 3 14 = (2025, 1).
Proof.
  pose proof (data_month_offset 2025 1 10 ltac:(lia)) as H1.
  pose proof (data_month_offset 2025 1 15 ltac:(lia)) as H2.
  pose proof (data_month_offset 2025 3 14 ltac:(lia)) as H3.
  repeat split.
Defined.

Lemma pick_step_tests picked f :
  FetchCmsData.pick_step picked f
  = if FetchCmsData.is_enrollment_name f then (Some f, picked.2)
    else if FetchCmsData.is_contract_info_name f then (picked.1, Some f)
    else picked.
Proof.
  unfold FetchCmsData.pick_step, FetchCmsData.is_contract_info_name,
    FetchCmsData.is_enrollment_name.
  destruct (PyStr.contains "enrollment" _ && negb _); reflexivity.
Qed.

(** after the loop, each of the two names is the last member that passed
    its test *)
Lemma pick_loop l picked :
  fold_left FetchCmsData.pick_step l picked
  = (match last (List.filter FetchCmsData.is_enrollment_name l) with
     | Some f => Some f
     | None => picked.1
     end,
     match last (List.filter FetchCmsData.is_contract_info_name l) with
     | Some f => Some f
     | None => picked.2
     end).
Proof.
  induction l as [|f l IH] using rev_ind; [by destruct picked|].
  rewrite fold_left_app, !List.filter_app. cbn [fold_left List.filter].
  rewrite IH, pick_step_tests.
  assert (Hexcl : FetchCmsData.is_enrollment_name f = true ->
                  FetchCmsData.is_contract_info_name f = false).
  { unfold FetchCmsData.is_contract_info_name. by intros ->. }
  destruct (FetchCmsData.is_enrollment_name f).
  - rewrite (Hexcl eq_refl), app_nil_r, last_snoc. reflexivity.
  - destruct (FetchCmsData.is_contract_info_name f).
    + rewrite app_nil_r, last_snoc. reflexivity.
    + by rewrite !app_nil_r.
Qed.

Lemma sort_desc_head (size : string -> Z) l f s rest :
  FetchCmsData.sort_desc (List.map (fun f => (f, size f)) l) = (f, s) :: rest ->
  (forall g, g ∈ l -> size g <= size f)
  /\ exists l1 l2, l = (l1 ++ f :: l2)%list /\ Forall (fun g => size g < size f) l1.
Proof.
  revert f s rest. induction l as [|a l IH]; intros f s rest; [discriminate|].
  cbn [List.map FetchCmsData.sort_desc fold_right].
  fold (FetchCmsData.sort_desc (List.map (fun f => (f, size f)) l)).
  destruct (FetchCmsData.sort_desc (List.map (fun f => (f, size f)) l))
    as [|[y sy] sl] eqn:Hsort.
  - assert (l = []) as ->.
    { destruct l as [|b l]; [reflexivity|]. exfalso.
      cbn [List.map FetchCmsData.sort_desc fold_right] in Hsort.
      destruct (fold_right FetchCmsData.insert_desc [] _) as [|z zs];
        cbn [FetchCmsData.insert_desc] in Hsort; [discriminate|].
      destruct (z.2 <=? (b, size b).2); discriminate. }
    cbn [FetchCmsData.insert_desc]. intros [= <- <- <-]. split.
    + intros g Hg. apply list_elem_of_singleton in Hg as ->. lia.
    + exists [], []. split; [reflexivity|constructor].
  - destruct (IH _ _ _ eq_refl) as (Hmax & l1 & l2 & -> & Hl1).
    assert (Hsy : sy = size y).
    { clear -Hsort. revert Hsort.
      generalize (l1 ++ y :: l2)%list. intros l.
      revert y sy sl. induction l as [|b l IH]; intros y sy sl; [discriminate|].
      cbn [List.map FetchCmsData.sort_desc fold_right].
      fold (FetchCmsData.sort_desc (List.map (fun f => (f, size f)) l)).
      destruct (FetchCmsData.sort_desc (List.map (fun f => (f, size f)) l))
        as [|[z sz] zs] eqn:Hs; cbn [FetchCmsData.insert_desc snd].
      - by intros [= <- <- <-].
      - destruct (sz <=? size b); [by intros [= <- <- <-]|].
        intros [= <- <- <-]. by eapply IH. }
    subst sy. cbn [FetchCmsData.insert_desc snd].
    destruct (Z.leb_spec (size y) (size a)) as [Hle|Hlt].
    + intros [= <- <- <-]. split.
      * intros g [->|Hg]%elem_of_cons; [lia|]. specialize (Hmax g Hg). lia.
      * exists [], (l1 ++ y :: l2)%list. split; [reflexivity|constructor].
    + intros [= <- <- <-]. split.
      * intros g [->|Hg]%elem_of_cons; [lia|]. by apply Hmax.
      * exists (a :: l1), l2. split; [reflexivity|]. by constructor.
Qed.

Lemma last_filter_elem {A} (p : A -> bool) l x :
  last (List.filter p l) = Some x -> x ∈ l.
Proof.
  intros Hlast. apply last_Some_elem_of in Hlast.
  apply list_elem_of_In, filter_In in Hlast as [Hin _]. by apply list_elem_of_In.
Qed.

(** X15. [extract_zip] raises exactly when the archive has no member whose
    name ends with ".csv" in any case.  Otherwise the member saved as the
    enrollment CSV is a CSV member of the archive: the last one whose
    lower-cased name contains "enrollment" and not "contract_info" and,
    when there is none, the first of the largest CSV members.  The member
    saved as the contract-info CSV is the last CSV member that fails the
    first test and whose lower-cased name contains "contract" and
    "info". *)
Theorem extract_zip_choice (zf : FetchCmsData.ZipFile) :
  match FetchCmsData.extract_zip_members zf with
  | None => FetchCmsData.csv_files zf = []
  | Some (enrollment_file, contract_file) =>
      enrollment_file ∈ FetchCmsData.csv_files zf
      /\ contract_file
         = last (List.filter FetchCmsData.is_contract_info_name (FetchCmsData.csv_files zf))
      /\ match last (List.filter FetchCmsData.is_enrollment_name
                       (FetchCmsData.csv_files zf)) with
         | Some f => enrollment_file = f
         | None =>
             (forall f, f ∈ FetchCmsData.csv_files zf ->
                FetchCmsData.file_size zf f <= FetchCmsData.file_size zf enrollment_file)
             /\ exists l1 l2,
                  FetchCmsData.csv_files zf = (l1 ++ enrollment_file :: l2)%list
                  /\ Forall (fun f => FetchCmsData.file_size zf f
                                      < FetchCmsData.file_size zf enrollment_file) l1
         end
  end.
Proof.
  unfold FetchCmsData.extract_zip_members.
  destruct (FetchCmsData.csv_files zf) as [|f0 fs] eqn:Hcsv; [reflexivity|].
  rewrite pick_loop. cbn [fst snd].
  split; [|split].
  - destruct (last (List.filter FetchCmsData.is_enrollment_name (f0 :: fs)))
      as [f|] eqn:Hlast; [by eapply last_filter_elem|].
    destruct (FetchCmsData.sort_desc _) as [|[f s] rest] eqn:Hsort.
    + exfalso. revert Hsort. cbn [List.map FetchCmsData.sort_desc fold_right].
      destruct (fold_right FetchCmsData.insert_desc [] _) as [|z zs];
        cbn [FetchCmsData.insert_desc]; [discriminate|].
      destruct (z.2 <=? _); discriminate.
    + apply sort_desc_head in Hsort as (_ & l1 & l2 & -> & _).
      apply elem_of_app. right. left.
  - by destruct (last (List.filter FetchCmsData.is_contract_info_name (f0 :: fs))).
  - destruct (last (List.filter FetchCmsData.is_enrollment_name (f0 :: fs)))
      as [f|] eqn:Hlast; [reflexivity|].
    destruct (FetchCmsData.sort_desc _) as [|[f s] rest] eqn:Hsort.
    + exfalso. revert Hsort. cbn [List.map FetchCmsData.sort_desc fold_right].
      destruct (fold_right FetchCmsData.insert_desc [] _) as [|z zs];
        cbn [FetchCmsData.insert_desc]; [discriminate|].
      destruct (z.2 <=? _); discriminate.
    + by apply sort_desc_head in Hsort.
Qed.

Example extract_zip_examples :
  FetchCmsData.extract_zip_members
    [("readme.txt", 10); ("CPSC_Enrollment_Info_2025_01.CSV", 900);
     ("CPSC_Contract_Info_2025_01.csv", 50)]
  = Some ("CPSC_Enrollment_Info_2025_01.CSV", Some "CPSC_Contract_Info_2025_01.csv")
  /\ FetchCmsData.extract_zip_members
       [("a.csv", 5); ("b.csv", 7); ("contract_info.csv", 7); ("c.csv", 7)]
     = Some ("b.csv", Some "contract_info.csv")
  /\ FetchCmsData.extract_zip_members [("contract_info.csv", 7)]
     = Some ("contract_info.csv", Some "contract_info.csv")
  /\ FetchCmsData.extract_zip_members [("readme.txt", 10)] = None.
Proof. repeat split; vm_compute; reflexivity. Qed.

Lemma py_index_nonneg {A} (l : list A) i :
  0 <= i < Z.of_nat (length l) -> FetchCmsData.py_index l i = l !! Z.to_nat i.
Proof.
  intros Hi. unfold FetchCmsData.py_index.
  rewrite (proj2 (Z.leb_le 0 i)), (proj2 (Z.ltb_lt i _)) by lia. reflexivity.
Qed.

Lemma py_index_negative {A} (l : list A) i :
  - Z.of_nat (length l) <= i < 0 ->
  FetchCmsData.py_index l i = l !! Z.to_nat (i + Z.of_nat (length l)).
Proof.
  intros Hi. unfold FetchCmsData.py_index.
  rewrite (proj2 (Z.leb_gt 0 i)) by lia. cbn [andb].
  rewrite (proj2 (Z.leb_le _ i)), (proj2 (Z.ltb_lt i 0)) by lia. reflexivity.
Qed.

Lemma py_index_outside {A} (l : list A) i :
  i < - Z.of_nat (length l) \/ Z.of_nat (length l) <= i ->
  FetchCmsData.py_index l i = None.
Proof.
  intros Hi. unfold FetchCmsData.py_index.
  destruct (Z.leb_spec 0 i), (Z.ltb_spec i (Z.of_nat (length l))); cbn [andb]; try lia.
  - destruct (Z.leb_spec (- Z.of_nat (length l)) i), (Z.ltb_spec i 0);
      cbn [andb]; try lia; reflexivity.
  - destruct (Z.leb_spec (- Z.of_nat (length l)) i), (Z.ltb_spec i 0);
      cbn [andb]; try lia; reflexivity.
Qed.

Lemma month_name_in_range month :
  -11 <= month <= 12 -> is_Some (FetchCmsData.month_name month).
Proof.
  intros Hm. unfold FetchCmsData.month_name.
  destruct (Z.le_gt_cases 1 month).
  - rewrite py_index_nonneg by (cbn; lia).
    apply lookup_lt_is_Some. cbn. lia.
  - rewrite py_index_negative by (cbn; lia).
    apply lookup_lt_is_Some. cbn. lia.
Qed.

(** X16. The month name that [fetch_cpsc_data] looks up exists exactly for
    the months from -11 to 12: a month above 12 or below -11 raises
    [IndexError], while 0 and the negative months down to -11 are taken
    from the end of the list without an error (month 0 is "december").
    For the months 1 to 12 the name is that of the calendar month.  So
    the month that [main] hands over has a name unless both a year and a
    month, neither of them 0, were given and the month is outside -11 to
    12: a detected month always has one. *)
Theorem month_name_bounds (month : Z) :
  (is_Some (FetchCmsData.month_name month) <-> -11 <= month <= 12)
  /\ (1 <= month <= 12 ->
      FetchCmsData.month_name month = FetchCmsData.month_names !! Z.to_nat (month - 1))
  /\ (-11 <= month <= 0 ->
      FetchCmsData.month_name month = FetchCmsData.month_name (month + 12))
  /\ (forall args_year args_month today_year today_month today_day,
        1 <= today_month <= 12 ->
        is_Some (FetchCmsData.month_name
                   (FetchCmsData.main_data_month args_year args_month
                      today_year today_month today_day).2)
        <-> forall year m,
              args_year = Some year -> args_month = Some m ->
              year <> 0 -> m <> 0 -> -11 <= m <= 12).
Proof.
  split; [|split; [|split]].
  - split; [|apply month_name_in_range].
    intros Hsome. destruct (Z.le_gt_cases (-11) month), (Z.le_gt_cases month 12);
      try lia; exfalso; unfold FetchCmsData.month_name in Hsome;
      rewrite py_index_outside in Hsome by (cbn; lia); by destruct Hsome.
  - intros Hm. unfold FetchCmsData.month_name. apply py_index_nonneg. cbn. lia.
  - intros Hm. unfold FetchCmsData.month_name.
    rewrite py_index_negative by (cbn; lia).
    rewrite py_index_nonneg by (cbn; lia). f_equal. cbn. lia.
  - intros ay am ty tm td Htm.
    assert (Hauto : is_Some (FetchCmsData.month_name
                               (FetchCmsData.get_current_data_month ty tm td).2)).
    { apply month_name_in_range. unfold FetchCmsData.get_current_data_month.
      destruct (td <? 15);
        match goal with |- context [?a <=? 0] => destruct (Z.leb_spec a 0) end;
        cbn [snd]; lia. }
    unfold FetchCmsData.main_data_month.
    destruct ay as [y|], am as [m|]; try (split; [intros _ ? ? ?; discriminate|done]).
    destruct (Z.eqb_spec y 0) as [->|Hy]; cbn [negb andb].
    { split; [|done]. intros _ ? ? [= <-] _ Hne. done. }
    destruct (Z.eqb_spec m 0) as [->|Hm]; cbn [negb andb snd].
    { split; [|done]. intros _ ? ? _ [= <-] _ Hne. done. }
    split.
    + intros Hsome ? ? [= <-] [= <-] _ _.
      destruct (Z.le_gt_cases (-11) m), (Z.le_gt_cases m 12);
        try lia; exfalso; unfold FetchCmsData.month_name in Hsome;
        rewrite py_index_outside in Hsome by (cbn; lia); by destruct Hsome.
    + intros Hall. apply month_name_in_range. by eapply Hall.
Qed.

Example month_name_examples :
  List.map FetchCmsData.month_name [1; 12; 0; -11; 13; -12]
  = [Some "january"; Some "december"; Some "december"; Some "january"; None; None].
Proof. vm_compute. reflexivity. Qed.

(** ** The plan type does not depend on letter case *)









Example identify_plan_type_case_examples :
  List.map (fun c => identify_plan_type (PyStr c.1.1) (PyStr c.1.2) (PyStr c.2))
    [ ("h1234", "Gold PPO", ""); ("H1234", "gold ppo", ""); ("r5826", "", "");
      ("H1234", "Care DUAL Plus", ""); ("S5601", "", "Dual-Eligible SNP");
      ("E0654", "Employer PPO", "") ]
  = [Some "PPO"; Some "PPO"; Some "PPO"; Some "DSNP"; Some "DSNP"; Some "Other"].
Proof. vm_compute. reflexivity. Qed.

(** ** The breakdowns of a county entry *)









(** ** Repeated names in the normalized header *)











